(** * void-bot: the Telegram buy bot and its rank table

    A shallow embedding of [src/telegram/ranks.ts] and of the classification
    and notification pipeline of [src/telegram/buybot.ts], with the
    properties stated in the specification proved (or refuted) against it.

    Conventions of the embedding:
    - a JavaScript [number] holding a token amount, a price or a USD value is
      a binary64 float ([PrimFloat.float]), with the comparisons and the
      arithmetic of IEEE 754, as in the source;
    - a [number] holding milliseconds ([Date.now()], the poll interval, the
      backoff) or an array index is an integer ([Z]);
    - a string is a [string]; an optional field is an [option];
    - module-level mutable variables ([messageQueue], [isSending],
      [cachedPrice], [processedTxs], [backoff]) are explicit state, passed in
      and returned;
    - the results of awaited external calls (the Telegram API, the price
      endpoint, the RPC node) are inputs of the functions that await them. *)

From Stdlib Require Import ZArith List String Ascii Bool Lia.
From Stdlib Require Import Floats DecimalString Permutation.
Import ListNotations.

Set Warnings "-inexact-float".
Local Open Scope string_scope.
Local Open Scope list_scope.
Local Open Scope Z_scope.

(** ** JavaScript values and built-ins used by the sources *)
Module JS.

(** A JavaScript number. *)
Abbreviation number := float (only parsing).

(** [a < b], [a > b], [a >= b] on numbers (false as soon as one side is NaN). *)
Definition lt (a b : number) : bool := PrimFloat.ltb a b.
Definition gt (a b : number) : bool := PrimFloat.ltb b a.
Definition ge (a b : number) : bool := PrimFloat.leb b a.

(** [x ?? 0] on a nullable number. *)
Definition orZero (x : option number) : number :=
  match x with Some v => v | None => 0%float end.

(** Truthiness of a string: every string but the empty one. *)
Definition truthy (s : string) : bool :=
  match s with EmptyString => false | String _ _ => true end.

(** [hay.includes(needle)]. *)
Fixpoint includes (needle hay : string) : bool :=
  String.prefix needle hay
  || match hay with
     | EmptyString => false
     | String _ rest => includes needle rest
     end.

(** The number with the value of a (small) array index or length. *)
Definition ofNat (n : nat) : number :=
  PrimFloat.of_uint63 (Uint63.of_Z (Z.of_nat n)).

(** The result of [Math.round]: an integer, or NaN or an infinity passed
    through. *)
Inductive rounded : Type :=
| RInt (z : Z)
| RNaN
| RInf (negative : bool).

(** [Math.round(x)]: the integer nearest to [x], a tie going to the larger
    one, that is [floor(x + 1/2)] computed exactly on the value
    [(-1)^s * m * 2^e] of the float. *)
Definition Math_round (x : number) : rounded :=
  match Prim2SF x with
  | S754_nan => RNaN
  | S754_infinity s => RInf s
  | S754_zero _ => RInt 0
  | S754_finite s m e =>
      let n := if s then Z.neg m else Z.pos m in
      if 0 <=? e then RInt (n * 2 ^ e)
      else RInt ((2 * n + 2 ^ (- e)) / (2 * 2 ^ (- e)))
  end.

(** [Math.floor(x)], exact in the same way. *)
Definition Math_floor (x : number) : rounded :=
  match Prim2SF x with
  | S754_nan => RNaN
  | S754_infinity s => RInf s
  | S754_zero _ => RInt 0
  | S754_finite s m e =>
      let n := if s then Z.neg m else Z.pos m in
      if 0 <=? e then RInt (n * 2 ^ e) else RInt (n / 2 ^ (- e))
  end.

(** [Math.min(r, k)] for an integer constant [k]. *)
Definition minInt (r : rounded) (k : Z) : rounded :=
  match r with
  | RInt z => RInt (Z.min z k)
  | RNaN => RNaN
  | RInf true => RInf true
  | RInf false => RInt k
  end.

(** [n] copies of [s]. *)
Fixpoint repeatString (s : string) (n : nat) : string :=
  match n with
  | O => ""
  | S n' => s ++ repeatString s n'
  end.

(** [s.repeat(count)]: a RangeError ([None]) for a negative or infinite
    count; NaN counts as 0. *)
Definition repeat (s : string) (count : rounded) : option string :=
  match count with
  | RInt z => if z <? 0 then None else Some (repeatString s (Z.to_nat z))
  | RNaN => Some ""
  | RInf _ => None
  end.

(** [k + r] for an integer constant [k] and a rounded value (exact for the
    magnitudes an image number takes). *)
Definition addInt (k : Z) (r : rounded) : rounded :=
  match r with RInt z => RInt (k + z) | other => other end.

(** The text a template literal inserts for such a number. *)
Definition showRounded (r : rounded) : string :=
  match r with
  | RInt z => NilZero.string_of_int (Z.to_int z)
  | RNaN => "NaN"
  | RInf false => "Infinity"
  | RInf true => "-Infinity"
  end.

(** [arr.findIndex(p)]: the first index whose element satisfies [p], or -1. *)
Fixpoint findIndexFrom {A} (p : A -> bool) (i : Z) (l : list A) : Z :=
  match l with
  | [] => -1
  | x :: rest => if p x then i else findIndexFrom p (i + 1) rest
  end.
Definition findIndex {A} (p : A -> bool) (l : list A) : Z := findIndexFrom p 0 l.

End JS.

(** ** ranks.ts *)
Module Ranks.

Record VoidRank : Type := mkRank { name : string; threshold : JS.number }.

(** Ordered from highest to lowest. *)
Definition VOID_RANKS : list VoidRank :=
  [ mkRank "VOID Ultimate" 2000000;
    mkRank "VOID Omega" 1500000;
    mkRank "VOID Absolute" 1000000;
    mkRank "VOID Singularity" 900000;
    mkRank "VOID Omnipotence" 850000;
    mkRank "VOID Eternity" 800000;
    mkRank "VOID Apotheosis" 750000;
    mkRank "VOID Divine" 650000;
    mkRank "VOID Celestial" 600000;
    mkRank "VOID Exalted" 550000;
    mkRank "VOID Transcendent" 500000;
    mkRank "VOID Majesty" 450000;
    mkRank "VOID Sovereign" 400000;
    mkRank "VOID Monarch" 350000;
    mkRank "VOID Admiral" 300000;
    mkRank "VOID Warden" 250000;
    mkRank "VOID Harbinger" 225000;
    mkRank "VOID Evoker" 200000;
    mkRank "VOID Emperor" 175000;
    mkRank "VOID Guardian" 150000;
    mkRank "VOID Berserker" 135000;
    mkRank "VOID Juggernaut" 120000;
    mkRank "VOID Lord" 100000;
    mkRank "VOID Alchemist" 90000;
    mkRank "VOID Clairvoyant" 85000;
    mkRank "VOID Conjurer" 80000;
    mkRank "VOID Archdruid" 70000;
    mkRank "VOID Sorcerer" 50000;
    mkRank "VOID Shaman" 45000;
    mkRank "VOID Sage" 40000;
    mkRank "VOID Warrior" 35000;
    mkRank "VOID Enchanter" 30000;
    mkRank "VOID Seer" 27500;
    mkRank "VOID Necromancer" 25000;
    mkRank "VOID Summoner" 22500;
    mkRank "VOID Master" 20000;
    mkRank "VOID Disciple" 15000;
    mkRank "VOID Acolyte" 12500;
    mkRank "VOID Expert" 10000;
    mkRank "VOID Apprentice" 7500;
    mkRank "VOID Rookie" 5000;
    mkRank "VOID Learner" 2500;
    mkRank "VOID Initiate" 1000;
    mkRank "VOID Peasant" 1 ]%float.

(** The loop of [getVoidRank] over a table. *)
Fixpoint rankIn (table : list VoidRank) (balance : JS.number) : string :=
  match table with
  | [] => "VOID Peasant"
  | rank :: rest =>
      if JS.ge balance (threshold rank) then name rank else rankIn rest balance
  end.

Definition getVoidRank (balance : JS.number) : string := rankIn VOID_RANKS balance.

(** [VOID_RANKS.findIndex(r => r.name === rankName)]. *)
Definition rankIndex (rankName : string) : Z :=
  JS.findIndex (fun r => String.eqb (name r) rankName) VOID_RANKS.

(** The number [imageNum] of [getRankImageUrl], for a rank found at
    [rankIndex] in the table. *)
Definition imageNum (rankIndex : nat) : JS.rounded :=
  let totalRanks := List.length VOID_RANKS in
  let normalized :=
    (1 - (JS.ofNat rankIndex / JS.ofNat (totalRanks - 1)))%float in
  JS.addInt 2 (JS.Math_round (normalized * 43)%float).

Definition getRankImageUrl (rankName : string) : string :=
  let rankIndex := rankIndex rankName in
  if rankIndex =? -1 then "https://voidsolana.com/ranks/rank2.png"
  else "https://voidsolana.com/ranks/rank"
       ++ JS.showRounded (imageNum (Z.to_nat rankIndex)) ++ ".png".

(** [getBuyEmojis]; [None] when [repeat] throws. *)
Definition getBuyEmojis (usdValue : JS.number) (isArbitrage : bool) : option string :=
  let pairCount :=
    JS.minInt (JS.Math_floor (usdValue / (if isArbitrage then 100 else 50))%float) 48 in
  let pair : string := if isArbitrage then "🤖🔩" else "🟣🔥" in
  match pairCount with
  | JS.RInt 0 => Some pair
  | _ => JS.repeat pair pairCount
  end.

End Ranks.

(** ** buybot.ts *)
Module BuyBot.

(** *** Config

    The values read from the environment at start-up.  [VOID_MINT] and
    [POOL_ID] stand for the base58 text of the two public keys. *)
Record Config : Type := mkConfig {
  VOID_MINT : string;
  POOL_ID : string;
  MIN_BUY_USD : JS.number;
  MIN_ARB_USD : JS.number;
  ARB_BALANCE_THRESHOLD : JS.number;
  BURN_IMAGE_URL : string;
  ARB_IMAGE_URL : string;
  BASE_INTERVAL : Z
}.

(** The configuration when only the two required keys are set: every
    optional variable takes the fallback written in the source. *)
Definition defaultConfig (voidMint poolId : string) : Config :=
  {| VOID_MINT := voidMint;
     POOL_ID := poolId;
     MIN_BUY_USD := 25;
     MIN_ARB_USD := 25;
     ARB_BALANCE_THRESHOLD := 500;
     BURN_IMAGE_URL := "https://voidsolana.com/burn.jpg";
     ARB_IMAGE_URL := "https://voidsolana.com/arbitrage.jpg";
     BASE_INTERVAL := 30000 |}.

Definition METEORA_POOL_W_VOID : string := "6rE8Ej3aae9QBukLYWFvzDAYmRgsygpKK1LbqLjHJGcL".
Definition METEORA_POOL_P_VOID : string := "5jW3M4defHZgCAt27FQU7upeELu5yWroiax9nmd2Bv62".

Definition POOLS (cfg : Config) : list string :=
  [POOL_ID cfg; METEORA_POOL_W_VOID; METEORA_POOL_P_VOID].

Definition VOID_TOTAL_SUPPLY : JS.number := 100000000%float.

(** *** Message queue *)

(** The values a caption template interpolates.  The text itself (number
    formatting, HTML) is not modelled. *)
Inductive Caption : Type :=
| BurnCaption (amount usdValue totalBurned currentSupply : JS.number)
              (signature : string)
| BuyCaption (emojis : string)
             (voidAmount usdValue priceUsd marketCap totalBurned
              percentBurned : JS.number)
             (signature buyerAddress : string) (isArbitrage : bool)
             (currentBalance : JS.number) (rank : string).

(** [pin] is optional in the source; an absent flag is falsy and is [false]
    here. *)
Record QueuedMessage : Type := mkMsg {
  photo : string;
  caption : Caption;
  pin : bool
}.

(** What the chat has received. *)
Inductive ChannelMessage : Type :=
| PhotoMessage (url : string) (text : Caption)
| TextMessage (text : Caption).

(** The Telegram side: the number of API calls made so far, the messages
    that reached the chat (a message's id is its position), the pinned ids,
    and the bot's own log lines. *)
Record Telegram : Type := mkTelegram {
  apiCalls : nat;
  channel : list ChannelMessage;
  pinned : list nat;
  logged : list string
}.

(** An awaited Telegram call either resolves with a value or rejects;
    [None] is the rejection, which propagates like a thrown exception. *)
Definition Tg (A : Type) : Type := Telegram -> option A * Telegram.

Definition ret {A} (a : A) : Tg A := fun w => (Some a, w).

Definition bind {A B} (m : Tg A) (k : A -> Tg B) : Tg B :=
  fun w => match m w with
           | (Some a, w') => k a w'
           | (None, w') => (None, w')
           end.

Notation "x <- m ;; k" := (bind m (fun x => k))
  (at level 61, m at next level, right associativity).
Notation "m ;;; k" := (bind m (fun _ => k))
  (at level 61, right associativity).

(** [try { body } catch { handler }]. *)
Definition tryCatch (body handler : Tg unit) : Tg unit :=
  fun w => match body w with
           | (Some _, w') => (Some tt, w')
           | (None, w') => handler w'
           end.

Definition logLine (line : string) : Tg unit :=
  fun w => (Some tt,
            mkTelegram (apiCalls w) (channel w) (pinned w) (logged w ++ [line])).

Section Delivery.

(** Whether the n-th call made to the Telegram API resolves. *)
Variable api : nat -> bool.

(** A send resolves with the id of the message that reached the chat. *)
Definition send (m : ChannelMessage) : Tg nat :=
  fun w =>
    if api (apiCalls w)
    then (Some (List.length (channel w)),
          mkTelegram (S (apiCalls w)) (channel w ++ [m]) (pinned w) (logged w))
    else (None, mkTelegram (S (apiCalls w)) (channel w) (pinned w) (logged w)).

Definition sendPhoto (url : string) (text : Caption) : Tg nat :=
  send (PhotoMessage url text).

Definition sendMessage (text : Caption) : Tg nat :=
  send (TextMessage text).

Definition pinChatMessage (message_id : nat) : Tg unit :=
  fun w =>
    if api (apiCalls w)
    then (Some tt,
          mkTelegram (S (apiCalls w)) (channel w) (pinned w ++ [message_id]) (logged w))
    else (None, mkTelegram (S (apiCalls w)) (channel w) (pinned w) (logged w)).

(** The [try]/[catch] block of [processQueue] for the message taken off the
    queue. *)
Definition deliver (msg : QueuedMessage) : Tg unit :=
  tryCatch
    (sent <- sendPhoto (photo msg) (caption msg) ;;
     (if pin msg then pinChatMessage sent else ret tt) ;;;
     logLine "Message sent successfully")
    (logLine "Failed to send photo. Falling back to text..." ;;;
     tryCatch
       (sent <- sendMessage (caption msg) ;;
        if pin msg then pinChatMessage sent else ret tt)
       (logLine "Failed to send fallback text")).

End Delivery.

(** The queue's variables.  [sending] holds the message shifted off the queue
    while its delivery is awaited; [timer] tells that the 2000 ms timeout set
    at the end of [processQueue] is pending. *)
Record Bot : Type := mkBot {
  messageQueue : list QueuedMessage;
  isSending : bool;
  sending : option QueuedMessage;
  timer : bool;
  telegram : Telegram
}.

Definition startBot : Bot :=
  mkBot [] false None false (mkTelegram 0 [] [] []).

(** [processQueue] up to its first [await]. *)
Definition processQueue (b : Bot) : Bot :=
  if isSending b then b
  else match messageQueue b with
       | [] => b
       | msg :: rest => mkBot rest true (Some msg) (timer b) (telegram b)
       end.

(** The rest of [processQueue]: the awaited calls settle and the timeout is
    set. *)
Definition settle (api : nat -> bool) (b : Bot) : Bot :=
  match sending b with
  | None => b
  | Some msg =>
      mkBot (messageQueue b) (isSending b) None true
            (snd (deliver api msg (telegram b)))
  end.

(** The callback of the timeout. *)
Definition onTimeout (b : Bot) : Bot :=
  if timer b
  then processQueue (mkBot (messageQueue b) false (sending b) false (telegram b))
  else b.

Definition enqueue (msg : QueuedMessage) (b : Bot) : Bot :=
  processQueue
    (mkBot (messageQueue b ++ [msg]) (isSending b) (sending b) (timer b) (telegram b)).

(** The notifications accepted and not yet handed to Telegram. *)
Definition pending (b : Bot) : nat :=
  List.length (messageQueue b)
  + match sending b with Some _ => 1 | None => 0 end.

(** *** Price fetching *)

Record Price : Type := mkPrice { usd : JS.number; solPrice : JS.number }.

(** The module variable [cachedPrice] when it is not null. *)
Record CachedPrice : Type := mkCached {
  cached_usd : JS.number;
  cached_solPrice : JS.number;
  ts : Z
}.

(** What the request to the price endpoint gave: an exception ([fetch] or
    [json] threw), no usable [priceUsd] on the first pair, or the two parsed
    numbers [parseFloat(pair.priceUsd)] and
    [parseFloat(pair.priceNative || "0")]. *)
Inductive Fetched : Type :=
| FetchThrew
| NoPriceUsd
| Pair (priceUsd priceNative : JS.number).

(** [getVoidPrice], reading the clock at [now] on entry and at [captured]
    when it stores a snapshot.  Returns the result, the new [cachedPrice]
    and the number of requests sent. *)
Definition getVoidPrice (now : Z) (response : Fetched) (captured : Z)
    (cachedPrice : option CachedPrice)
    : option Price * option CachedPrice * nat :=
  let refetch :=
    match response with
    | FetchThrew => (None, cachedPrice, 1%nat)
    | NoPriceUsd => (None, cachedPrice, 1%nat)
    | Pair u s => (Some (mkPrice u s), Some (mkCached u s captured), 1%nat)
    end in
  match cachedPrice with
  | Some c =>
      if now - ts c <? 30000
      then (Some (mkPrice (cached_usd c) (cached_solPrice c)), cachedPrice, 0%nat)
      else refetch
  | None => refetch
  end.

(** *** Transaction dedup

    [processedTxs] is a JavaScript [Set]: its elements in insertion order,
    without repetition. *)
Definition MAX_PROCESSED : Z := 2000.

Definition setHas (x : string) (s : list string) : bool :=
  existsb (String.eqb x) s.

Definition setDelete (x : string) (s : list string) : list string :=
  filter (fun y => negb (String.eqb y x)) s.

Definition markProcessed (sig : string) (processedTxs : list string)
    : bool * list string :=
  if setHas sig processedTxs then (false, processedTxs)
  else
    let evicted :=
      if MAX_PROCESSED <=? Z.of_nat (List.length processedTxs) then
        match processedTxs with
        | first :: _ =>
            if JS.truthy first then setDelete first processedTxs
            else processedTxs
        | [] => processedTxs
        end
      else processedTxs in
    (true, evicted ++ [sig]).

(** The window after a stream of signatures, oldest first. *)
Definition markAll (sigs : list string) (processedTxs : list string) : list string :=
  fold_left (fun s sig => snd (markProcessed sig s)) sigs processedTxs.

(** *** Transactions *)

(** One entry of [preTokenBalances] or [postTokenBalances]; [uiAmount] is
    [uiTokenAmount.uiAmount], which may be null. *)
Record TokenBalance : Type := mkBal {
  accountIndex : Z;
  mint : string;
  owner : option string;
  uiAmount : option JS.number
}.

(** [tx.meta], its absent arrays already replaced by [[]]. *)
Record Meta : Type := mkMeta {
  preTokenBalances : list TokenBalance;
  postTokenBalances : list TokenBalance;
  logMessages : list string
}.

(** A fetched transaction; [feePayer] is
    [tx.transaction.message.accountKeys[0].pubkey.toBase58()]. *)
Record ParsedTransaction : Type := mkTx {
  meta : option Meta;
  feePayer : string
}.

(** The handler a transaction is passed to, with its arguments. *)
Inductive Event : Type :=
| Burn (signature : string) (burner : option string) (amount : JS.number)
| Buy (signature buyer : string) (amount balance : JS.number).

Definition INCINERATOR : string := "1nc1nerator11111111111111111111111111111111".
Definition DEAD_ADDRESS : string := "11111111111111111111111111111111".
Definition HELPER_WALLET : string := "CEJnLWLEzRGSaeaoWKVSnhA4QD4mZaRY9sQbz4NNfyLz".

(** [b.owner === address]. *)
Definition ownerIs (address : string) (b : TokenBalance) : bool :=
  match owner b with
  | Some o => String.eqb o address
  | None => false
  end.

(** [balances.find(p => p.accountIndex === i)]. *)
Definition findAccount (i : Z) (balances : list TokenBalance) : option TokenBalance :=
  find (fun p => accountIndex p =? i) balances.

(** [(b?.uiTokenAmount?.uiAmount ?? 0)] for the result of a [find]. *)
Definition amountOf (b : option TokenBalance) : JS.number :=
  JS.orZero (match b with Some x => uiAmount x | None => None end).

Section Classifier.

Variable cfg : Config.
Variable signature : string.
Variable preBalances postBalances : list TokenBalance.

Definition isVoid (b : TokenBalance) : bool := String.eqb (mint b) (VOID_MINT cfg).

(** [logs.some(l => l.includes("Instruction: Burn") || l.includes("BurnChecked"))]. *)
Definition isBurnLog (logs : list string) : bool :=
  existsb (fun l => JS.includes "Instruction: Burn" l || JS.includes "BurnChecked" l) logs.

Definition deadTransfers : list TokenBalance :=
  filter (fun b => (ownerIs INCINERATOR b || ownerIs DEAD_ADDRESS b) && isVoid b)
         postBalances.

(** The gain of a burn-sink entry. *)
Definition gainOf (trans : TokenBalance) : JS.number :=
  (amountOf (Some trans) - amountOf (findAccount (accountIndex trans) preBalances))%float.

(** The loss of a pre-balance entry. *)
Definition lossOf (p : TokenBalance) : JS.number :=
  (amountOf (Some p) - amountOf (findAccount (accountIndex p) postBalances))%float.

(** Who sent [gain] to the sink: the owner of the first tracked-mint entry
    that lost that much, within 0.001. *)
Definition burnerOf (gain : JS.number) : string :=
  let sender :=
    find (fun p => isVoid p && JS.lt (abs (lossOf p - gain)) 0.001%float)
         preBalances in
  match sender with
  | Some s => match owner s with
              | Some o => if JS.truthy o then o else "Unknown"
              | None => "Unknown"
              end
  | None => "Unknown"
  end.

(** 1.B: the loop over [deadTransfers]. *)
Fixpoint burnSink (transfers : list TokenBalance) : option Event :=
  match transfers with
  | [] => None
  | trans :: rest =>
      let gain := gainOf trans in
      if JS.gt gain 0%float
      then Some (Burn signature (Some (burnerOf gain)) gain)
      else burnSink rest
  end.

(** The gain of the pool as 1.C computes it: the first post-balance entry
    owned by [POOL_ID] against the first pre-balance entry owned by it. *)
Definition poolGain : JS.number :=
  (amountOf (find (ownerIs (POOL_ID cfg)) postBalances)
   - amountOf (find (ownerIs (POOL_ID cfg)) preBalances))%float.

(** The test that makes 1.C report the entry [preBal]. *)
Definition burnsAt (preBal : TokenBalance) : bool :=
  isVoid preBal
  && JS.gt (lossOf preBal) 0%float
  && JS.lt poolGain (lossOf preBal * 0.9)%float.

(** 1.C: the loop over [preBalances] (run when [isBurnLog]). *)
Fixpoint burnByLog (pres : list TokenBalance) : option Event :=
  match pres with
  | [] => None
  | preBal :: rest =>
      if negb (isVoid preBal) then burnByLog rest
      else
        let loss := lossOf preBal in
        if JS.gt loss 0%float
        then if JS.lt poolGain (loss * 0.9)%float
             then Some (Burn signature (owner preBal) loss)
             else burnByLog rest
        else burnByLog rest
  end.

(** The variables of the buy sweep. *)
Record Sweep : Type := mkSweep {
  totalBought : JS.number;
  buyer : string;
  maxBuyerBalance : JS.number;
  isTrade : bool
}.

(** [postBal.uiTokenAmount.uiAmount - (preBal?.uiTokenAmount?.uiAmount ?? 0)]. *)
Definition deltaOf (postBal : TokenBalance) : JS.number :=
  (amountOf (Some postBal) - amountOf (findAccount (accountIndex postBal) preBalances))%float.

(** A known pool, or an owner string shorter than 44 characters. *)
Definition isPool (postBal : TokenBalance) : bool :=
  existsb (fun p => ownerIs p postBal) (POOLS cfg)
  || match owner postBal with
     | Some o => (String.length o <? 44)%nat
     | None => false
     end.

(** One iteration of the loop over [postBalances].  A null [uiAmount]
    compares as 0. *)
Definition sweepStep (s : Sweep) (postBal : TokenBalance) : Sweep :=
  if negb (isVoid postBal) then s
  else
    let delta := deltaOf postBal in
    if JS.lt delta 0%float then
      if isPool postBal
      then mkSweep (totalBought s + abs delta)%float (buyer s) (maxBuyerBalance s) true
      else s
    else if JS.gt delta 0%float then
      if JS.gt (JS.orZero (uiAmount postBal)) (maxBuyerBalance s)
      then mkSweep (totalBought s)
                   (match owner postBal with
                    | Some o => if JS.truthy o then o else buyer s
                    | None => buyer s
                    end)
                   (JS.orZero (uiAmount postBal))
                   (isTrade s)
      else s
    else s.

Definition sweep (payer : string) : Sweep :=
  fold_left sweepStep postBalances (mkSweep 0%float payer 0%float false).

(** 2: buy detection. *)
Definition buyDetection (payer : string) : option Event :=
  let s := sweep payer in
  if isTrade s && JS.gt (totalBought s) 0.01%float
     && negb (String.eqb (buyer s) HELPER_WALLET)
  then Some (Buy signature (buyer s) (totalBought s) (maxBuyerBalance s))
  else None.

End Classifier.

(** [processTransaction], given what [getParsedTransaction] resolved with.
    The result is the handler call it makes, if any. *)
Definition processTransaction (cfg : Config) (signature : string)
    (tx : option ParsedTransaction) : option Event :=
  match tx with
  | None => None
  | Some t =>
      match meta t with
      | None => None
      | Some m =>
          let pre := preTokenBalances m in
          let post := postTokenBalances m in
          match burnSink cfg signature pre post (deadTransfers cfg post) with
          | Some e => Some e
          | None =>
              match (if isBurnLog (logMessages m)
                     then burnByLog cfg signature pre post pre
                     else None) with
              | Some e => Some e
              | None => buyDetection cfg signature pre post (feePayer t)
              end
          end
      end
  end.

(** *** Handlers

    [price] is what [getVoidPrice()] resolved with and [currentSupply] what
    [getCurrentSupply()] resolved with. *)

Definition handleBurn (cfg : Config) (price : option Price) (currentSupply : JS.number)
    (signature : string) (burner : option string) (amount : JS.number) (b : Bot) : Bot :=
  match price with
  | None => b
  | Some p =>
      let usdValue := (amount * usd p)%float in
      let totalBurned := (VOID_TOTAL_SUPPLY - currentSupply)%float in
      enqueue (mkMsg (BURN_IMAGE_URL cfg)
                     (BurnCaption amount usdValue totalBurned currentSupply signature)
                     true) b
  end.

Definition isArbitrageBalance (cfg : Config) (currentBalance : JS.number) : bool :=
  JS.lt currentBalance (ARB_BALANCE_THRESHOLD cfg).

(** The message [handleBuy] builds once the thresholds are passed, given the
    emoji line. *)
Definition buyMessage (cfg : Config) (p : Price) (currentSupply : JS.number)
    (signature buyerAddress : string) (voidAmount currentBalance : JS.number)
    (emojis : string) : QueuedMessage :=
  let usdValue := (voidAmount * usd p)%float in
  let isArbitrage := isArbitrageBalance cfg currentBalance in
  let totalBurned := (VOID_TOTAL_SUPPLY - currentSupply)%float in
  let percentBurned := ((totalBurned / VOID_TOTAL_SUPPLY) * 100)%float in
  let marketCap := (usd p * currentSupply)%float in
  let rank := Ranks.getVoidRank currentBalance in
  let imageUrl := if isArbitrage then ARB_IMAGE_URL cfg else Ranks.getRankImageUrl rank in
  mkMsg imageUrl
        (BuyCaption emojis voidAmount usdValue (usd p) marketCap totalBurned
                    percentBurned signature buyerAddress isArbitrage
                    currentBalance rank)
        false.

(** [handleBuy].  When [getBuyEmojis] throws, the call ends there and
    nothing is enqueued. *)
Definition handleBuy (cfg : Config) (price : option Price) (currentSupply : JS.number)
    (signature buyerAddress : string) (voidAmount currentBalance : JS.number)
    (b : Bot) : Bot :=
  match price with
  | None => b
  | Some p =>
      let usdValue := (voidAmount * usd p)%float in
      let isArbitrage := isArbitrageBalance cfg currentBalance in
      if isArbitrage && JS.lt usdValue (MIN_ARB_USD cfg) then b
      else if negb isArbitrage && JS.lt usdValue (MIN_BUY_USD cfg) then b
      else match Ranks.getBuyEmojis usdValue isArbitrage with
           | None => b
           | Some emojis =>
               enqueue (buyMessage cfg p currentSupply signature buyerAddress
                                   voidAmount currentBalance emojis) b
           end
  end.

(** The handler call [processTransaction] ends with. *)
Definition dispatch (cfg : Config) (price : option Price) (currentSupply : JS.number)
    (e : option Event) (b : Bot) : Bot :=
  match e with
  | None => b
  | Some (Burn signature burner amount) =>
      handleBurn cfg price currentSupply signature burner amount b
  | Some (Buy signature who amount balance) =>
      handleBuy cfg price currentSupply signature who amount balance b
  end.

(** *** Main loop *)

(** How [pollForSwaps] ended: normally, or by throwing [err], of which
    [text] is [String(err)]. *)
Inductive PollResult : Type :=
| PollOk
| PollThrew (text : string).

(** What is thrown when the RPC answers with status 429:
    [new Error("429 Too Many Requests")]. *)
Definition RATE_LIMITED : PollResult := PollThrew "Error: 429 Too Many Requests".

(** One run of [pollLoop]: the clock reads [start] on entry and [finish]
    after the poll.  Returns the new [backoff] and the delay passed to
    [setTimeout]. *)
Definition pollLoop (cfg : Config) (result : PollResult) (start finish : Z)
    (backoff : Z) : Z * Z :=
  let backoff' :=
    match result with
    | PollOk => 1000
    | PollThrew text =>
        if JS.includes "429" text
        then Z.min (backoff * 2) 60000
        else backoff
    end in
  let elapsed := finish - start in
  let delay :=
    Z.max 0 (BASE_INTERVAL cfg - elapsed)
    + (if 1000 <? backoff' then backoff' else 0) in
  (backoff', delay).

(** The initial value of [backoff]. *)
Definition initialBackoff : Z := 1000.

(** [backoff] after a sequence of cycles, each given by its poll result and
    its two clock readings. *)
Definition backoffAfter (cfg : Config) (cycles : list (PollResult * Z * Z)) : Z :=
  fold_left (fun b '(r, s, f) => fst (pollLoop cfg r s f b)) cycles initialBackoff.

(** *** Swap polling *)

(** One entry of the answer to [getSignaturesForAddress]; [err] tells whether
    [sigInfo.err] is set. *)
Record SigInfo : Type := mkSig { signature : string; err : bool }.

(** The parameters of the request: [until] is sent only when
    [lastSignature] is truthy. *)
Record Request : Type := mkRequest { limit : Z; until : option string }.

Definition pollRequest (lastSignature : option string) : Request :=
  mkRequest 10
    (match lastSignature with
     | Some s => if JS.truthy s then Some s else None
     | None => None
     end).

(** What the request gave: [fetch] or [resp.json()] threw [e] ([text] is
    [String(e)]), the status was 429, the body carried an [error] ([json] is
    [JSON.stringify(data.error)]), or it carried [result], newest first (a
    missing [result] is the empty list). *)
Inductive RpcAnswer : Type :=
| RpcThrew (text : string)
| RpcStatus429
| RpcError (json : string)
| RpcResult (sigs : list SigInfo).

(** The loop of [pollForSwaps] over the reversed page: the signatures passed
    to [processTransaction], in order, and the window left. *)
Fixpoint classifyPage (sigs : list SigInfo) (processedTxs : list string)
    : list string * list string :=
  match sigs with
  | [] => ([], processedTxs)
  | sigInfo :: rest =>
      let marked := markProcessed (signature sigInfo) processedTxs in
      let later := classifyPage rest (snd marked) in
      (if fst marked && negb (err sigInfo)
       then signature sigInfo :: fst later
       else fst later,
       snd later)
  end.

(** [pollForSwaps]: how it ended, the new [lastSignature], the new
    [processedTxs] and the signatures passed to [processTransaction]. *)
Definition pollForSwaps (answer : RpcAnswer) (lastSignature : option string)
    (processedTxs : list string)
    : PollResult * option string * list string * list string :=
  match answer with
  | RpcThrew text => (PollThrew text, lastSignature, processedTxs, [])
  | RpcStatus429 => (RATE_LIMITED, lastSignature, processedTxs, [])
  | RpcError json =>
      (PollThrew ("Error: " ++ json)%string, lastSignature, processedTxs, [])
  | RpcResult [] => (PollOk, lastSignature, processedTxs, [])
  | RpcResult (newest :: older) =>
      let page := classifyPage (rev (newest :: older)) processedTxs in
      (PollOk, Some (signature newest), snd page, fst page)
  end.

(** The variables of the poller. *)
Record Poller : Type := mkPoller {
  lastSignature : option string;
  seen : list string;
  backoff : Z
}.

(** One cycle: [pollLoop] running [pollForSwaps].  Returns the new
    variables, the delay of the next cycle and the signatures classified. *)
Definition pollCycle (cfg : Config) (answer : RpcAnswer) (start finish : Z)
    (p : Poller) : Poller * Z * list string :=
  let '(result, cursor, window, classified) :=
    pollForSwaps answer (lastSignature p) (seen p) in
  let '(backoff', delay) := pollLoop cfg result start finish (backoff p) in
  (mkPoller cursor window backoff', delay, classified).

(** *** Environment *)

(** [env(key, fallback)] over the process environment [vars]; [None] is the
    thrown "Missing env var". *)
Definition env (vars : string -> option string) (key : string)
    (fallback : option string) : option string :=
  let v := match vars key with Some x => Some x | None => fallback end in
  match v with
  | Some x => if JS.truthy x then Some x else None
  | None => None
  end.

End BuyBot.

Import BuyBot.

(** ** Notions used in the statements *)

(** *** Ranks *)

(** The position of the first entry of a table whose threshold the balance
    reaches, or the table's length when there is none. *)
Fixpoint matchPos (table : list Ranks.VoidRank) (balance : JS.number) : nat :=
  match table with
  | [] => 0
  | rank :: rest =>
      if JS.ge balance (Ranks.threshold rank) then 0%nat else S (matchPos rest balance)
  end.

(** *** The dedup window *)

(** A signature the guard [if (first)] of [markProcessed] lets through. *)
Definition nonEmpty (s : string) : Prop := JS.truthy s = true.

(** The last [n] elements of a list. *)
Definition lastn {A} (n : nat) (l : list A) : list A := skipn (List.length l - n) l.

Definition capacity : nat := Z.to_nat MAX_PROCESSED.

(** The invariant of [processedTxs] while only non-empty signatures arrive. *)
Definition Window (w : list string) : Prop :=
  NoDup w /\ (List.length w <= capacity)%nat /\ Forall nonEmpty w.

(** Sample signatures: 2001 distinct non-empty ones, and 2001 distinct ones
    the first of which is the empty string. *)
Definition sigOf (n : nat) : string :=
  ("sig" ++ NilZero.string_of_uint (Nat.to_uint n))%string.
Definition sampleSigs : list string := map sigOf (seq 0 2001).
Definition sampleWithEmpty : list string := "" :: map sigOf (seq 1 2000).

Fixpoint distinctb (l : list string) : bool :=
  match l with
  | [] => true
  | x :: rest => negb (setHas x rest) && distinctb rest
  end.

(** *** The message queue *)

(** The queue's variables agree: a message is in flight only while
    [isSending] is set. *)
Definition consistent (b : Bot) : Prop :=
  isSending b = false -> sending b = None.

Definition sampleCaption : Caption := BurnCaption 100 25 100 99999900 "5sig".
Definition burnNotice : QueuedMessage :=
  mkMsg "https://voidsolana.com/burn.jpg" sampleCaption true.

(** A Telegram API that accepts the photo (call 0), refuses the pin (call 1)
    and accepts everything after. *)
Definition pinRefused (n : nat) : bool :=
  match n with 1%nat => false | _ => true end.

(** *** Classification *)

(** The pool's gain as the specification words it: the pool's post amount
    minus its pre amount, both for the tracked mint. *)
Definition specPoolGain (cfg : Config) (pre post : list TokenBalance) : JS.number :=
  (amountOf (find (fun b => ownerIs (POOL_ID cfg) b && isVoid cfg b) post)
   - amountOf (find (fun b => ownerIs (POOL_ID cfg) b && isVoid cfg b) pre))%float.

(** The first entry owned by the pool, if any, holds the tracked mint. *)
Definition poolEntryTracked (cfg : Config) (balances : list TokenBalance) : Prop :=
  find (ownerIs (POOL_ID cfg)) balances
  = find (fun b => ownerIs (POOL_ID cfg) b && isVoid cfg b) balances.


(** *** Sample transactions *)

(** An entry with an owner and an amount. *)
Definition entry (i : Z) (mintAddress ownerAddress : string) (amount : JS.number)
    : TokenBalance :=
  mkBal i mintAddress (Some ownerAddress) (Some amount).

Definition sampleConfig : Config := defaultConfig "VoidMint1111" "PoolState1111".
Definition alice : string := "A1iceWa11etA1iceWa11etA1iceWa11etA1iceWa11et".
Definition bob : string := "BobWa11etBobWa11etBobWa11etBobWa11etBobWa11e".
Definition otherMint : string := "So11111111111111111111111111111111111111112".
Definition burnLog : list string :=
  ["Program TokenkegQfeZyiNwAJbNbGKPFXCWuBvf9Ss623VQ5DA invoke [1]";
   "Program log: Instruction: Burn"].

(** Alice destroys 100 tokens while the pool takes in 10. *)
Definition burnTx : ParsedTransaction :=
  mkTx (Some (mkMeta
          [entry 1 "VoidMint1111" alice 100;
           entry 2 "VoidMint1111" "PoolState1111" 1000]
          [entry 1 "VoidMint1111" alice 0;
           entry 2 "VoidMint1111" "PoolState1111" 1010]
          burnLog))
       alice.

(** Alice sells 100 tokens and the pool takes in 99. *)
Definition sellTx : ParsedTransaction :=
  mkTx (Some (mkMeta
          [entry 1 "VoidMint1111" alice 100;
           entry 2 "VoidMint1111" "PoolState1111" 1000]
          [entry 1 "VoidMint1111" alice 0;
           entry 2 "VoidMint1111" "PoolState1111" 1099]
          burnLog))
       alice.

(** Alice and Bob both destroy tokens in one transaction. *)
Definition bobBefore : TokenBalance := entry 2 "VoidMint1111" bob 50.
Definition twoBurnsPre : list TokenBalance :=
  [entry 1 "VoidMint1111" alice 100; bobBefore].
Definition twoBurnsPost : list TokenBalance :=
  [entry 1 "VoidMint1111" alice 0; entry 2 "VoidMint1111" bob 0].
Definition twoBurnsTx : ParsedTransaction :=
  mkTx (Some (mkMeta twoBurnsPre twoBurnsPost burnLog)) alice.

(** The sale again, with the pool's account of the other mint listed before
    its account of the tracked mint. *)
Definition otherFirstPre : list TokenBalance :=
  [entry 1 otherMint "PoolState1111" 50;
   entry 2 "VoidMint1111" "PoolState1111" 1000;
   entry 3 "VoidMint1111" alice 100].
Definition otherFirstPost : list TokenBalance :=
  [entry 1 otherMint "PoolState1111" 49.5;
   entry 2 "VoidMint1111" "PoolState1111" 1099;
   entry 3 "VoidMint1111" alice 0].
Definition sellTxOtherMintFirst : ParsedTransaction :=
  mkTx (Some (mkMeta otherFirstPre otherFirstPost burnLog)) alice.

(** Two pool accounts lose 50 and 30 and one wallet gains 80: Bob's, or the
    helper wallet. *)
Definition arbitragePre (receiver : string) : list TokenBalance :=
  [entry 1 "VoidMint1111" "PoolState1111" 1000;
   entry 2 "VoidMint1111" METEORA_POOL_W_VOID 500;
   entry 3 "VoidMint1111" receiver 20].
Definition arbitragePost (receiver : string) : list TokenBalance :=
  [entry 1 "VoidMint1111" "PoolState1111" 950;
   entry 2 "VoidMint1111" METEORA_POOL_W_VOID 470;
   entry 3 "VoidMint1111" receiver 100].
Definition arbitrageTx (receiver : string) : ParsedTransaction :=
  mkTx (Some (mkMeta (arbitragePre receiver) (arbitragePost receiver) [])) alice.

(** The pool loses 100 and no account gains. *)
Definition noReceiverTx : ParsedTransaction :=
  mkTx (Some (mkMeta
          [entry 1 "VoidMint1111" "PoolState1111" 1000]
          [entry 1 "VoidMint1111" "PoolState1111" 900]
          []))
       alice.

(** *** The queue as a machine *)

(** What can happen to the queue: a handler enqueues a message, the awaited
    Telegram calls of the delivery in flight settle, the 2000 ms timeout
    fires. *)
Inductive QueueEvent : Type :=
| Enqueued (m : QueuedMessage)
| Settled
| TimedOut.

Definition stepQueue (api : nat -> bool) (b : Bot) (e : QueueEvent) : Bot :=
  match e with
  | Enqueued m => enqueue m b
  | Settled => settle api b
  | TimedOut => onTimeout b
  end.

Definition runQueue (api : nat -> bool) (events : list QueueEvent) (b : Bot) : Bot :=
  fold_left (stepQueue api) events b.

(** The messages enqueued by a run, in order. *)
Fixpoint enqueuedBy (events : list QueueEvent) : list QueuedMessage :=
  match events with
  | [] => []
  | Enqueued m :: rest => m :: enqueuedBy rest
  | _ :: rest => enqueuedBy rest
  end.

(** The messages whose delivery was carried out by a run, in order. *)
Fixpoint attemptedBy (api : nat -> bool) (events : list QueueEvent) (b : Bot)
    : list QueuedMessage :=
  match events with
  | [] => []
  | e :: rest =>
      match e, sending b with
      | Settled, Some m => m :: attemptedBy api rest (stepQueue api b e)
      | _, _ => attemptedBy api rest (stepQueue api b e)
      end
  end.

(** The message in flight, as a list. *)
Definition inFlight (b : Bot) : list QueuedMessage :=
  match sending b with Some m => [m] | None => [] end.

(** The three states of the queue: idle with nothing waiting, a delivery in
    flight, or waiting for the timeout after a delivery. *)
Definition queueState (b : Bot) : Prop :=
  (isSending b = false /\ sending b = None /\ timer b = false /\ messageQueue b = [])
  \/ (isSending b = true /\ (exists m, sending b = Some m) /\ timer b = false)
  \/ (isSending b = true /\ sending b = None /\ timer b = true).

(** Every pinned id is the id of a message of the channel. *)
Definition pinsDelivered (tg : Telegram) : Prop :=
  Forall (fun id => (id < List.length (channel tg))%nat) (pinned tg).

(** *** Classification, continued *)

Definition isBuy (e : option Event) : bool :=
  match e with Some (Buy _ _ _ _) => true | _ => false end.

(** A tracked-mint entry of the post-balance list whose balance went up. *)
Definition gainer (cfg : Config) (pre : list TokenBalance) (p : TokenBalance) : bool :=
  isVoid cfg p && negb (JS.lt (deltaOf pre p) 0) && JS.gt (deltaOf pre p) 0.

(** *** Ranks, continued *)

(** Every later threshold of a table is strictly below the earlier ones. *)
Fixpoint descending (table : list Ranks.VoidRank) : bool :=
  match table with
  | [] => true
  | r :: rest =>
      forallb (fun x => JS.gt (Ranks.threshold r) (Ranks.threshold x)) rest
      && descending rest
  end.

(** *** Polling and the sweep, continued *)

(** A list obtained from another by dropping elements. *)
Inductive Subseq {A : Type} : list A -> list A -> Prop :=
| Subseq_nil : Subseq [] []
| Subseq_drop x l1 l2 : Subseq l1 l2 -> Subseq l1 (x :: l2)
| Subseq_keep x l1 l2 : Subseq l1 l2 -> Subseq (x :: l1) (x :: l2).

(** A tracked-mint entry with a negative delta that counts as a pool. *)
Definition poolLoss (cfg : Config) (pre : list TokenBalance) (p : TokenBalance) : bool :=
  isVoid cfg p && JS.lt (deltaOf pre p) 0 && isPool cfg p.

(** Alice sends 100 tokens to the incinerator. *)
Definition sinkTx : ParsedTransaction :=
  mkTx (Some (mkMeta
          [entry 1 "VoidMint1111" alice 100;
           entry 2 "VoidMint1111" "PoolState1111" 1000]
          [entry 1 "VoidMint1111" alice 0;
           entry 2 "VoidMint1111" "PoolState1111" 900;
           entry 3 "VoidMint1111" INCINERATOR 100]
          []))
       alice.

(** A transaction that moves the other mint only. *)
Definition otherMintTx : ParsedTransaction :=
  mkTx (Some (mkMeta
          [entry 1 otherMint "PoolState1111" 50; entry 2 otherMint alice 10]
          [entry 1 otherMint "PoolState1111" 40; entry 2 otherMint alice 20]
          burnLog))
       alice.

(** A wallet whose address has 43 characters sells 100 tokens to a pool the
    bot does not know. *)
Definition carol : string := "Caro1Wa11etCaro1Wa11etCaro1Wa11etCaro1Wa11e".
Definition unknownPool : string := "UnknownPoo1UnknownPoo1UnknownPoo1UnknownPoo1".
Definition shortOwnerTx : ParsedTransaction :=
  mkTx (Some (mkMeta
          [entry 1 "VoidMint1111" carol 100;
           entry 2 "VoidMint1111" unknownPool 1000]
          [entry 1 "VoidMint1111" carol 0;
           entry 2 "VoidMint1111" unknownPool 1100]
          []))
       carol.

(** ** Order facts about binary64 comparisons *)

Lemma SFcompare_le_lt_trans (a b c : spec_float) :
  SFleb a b = true -> SFltb b c = true -> SFltb a c = true.
Proof.
  unfold SFleb, SFltb.
  destruct a as [sa|sa| |sa ma ea], b as [sb|sb| |sb mb eb], c as [sc|sc| |sc mc ec];
    try destruct sa; try destruct sb; try destruct sc; cbn;
    try reflexivity; try discriminate; intros Hab Hbc.
  all: change (Pos.compare_cont Eq) with Pos.compare in *.
  all: destruct (Z.compare_spec ea eb); destruct (Z.compare_spec eb ec);
       destruct (Z.compare_spec ea ec); try lia; try reflexivity; try discriminate;
       subst;
       destruct (Pos.compare_spec ma mb); destruct (Pos.compare_spec mb mc);
       destruct (Pos.compare_spec ma mc); cbn in *; try lia; try reflexivity; try discriminate.
Qed.

Lemma SFltb_SFleb (a b : spec_float) : SFltb a b = true -> SFleb a b = true.
Proof.
  unfold SFleb, SFltb. destruct (SFcompare a b) as [[| |]|]; easy.
Qed.

Lemma ge_lt_gt (t b1 b2 : JS.number) :
  JS.ge b1 t = true -> JS.lt b1 b2 = true -> JS.gt b2 t = true.
Proof.
  unfold JS.ge, JS.lt, JS.gt. rewrite leb_spec, !ltb_spec. apply SFcompare_le_lt_trans.
Qed.

Lemma ge_lt_ge (t b1 b2 : JS.number) :
  JS.ge b1 t = true -> JS.lt b1 b2 = true -> JS.ge b2 t = true.
Proof.
  intros H1 H2. pose proof (ge_lt_gt _ _ _ H1 H2) as H.
  unfold JS.ge, JS.gt in *. rewrite leb_spec. rewrite ltb_spec in H.
  now apply SFltb_SFleb.
Qed.

(** ** ranks.ts *)

Lemma matchPos_le_length table b : (matchPos table b <= List.length table)%nat.
Proof.
  induction table as [|r rest IH]; cbn [matchPos List.length]; [lia|].
  destruct (JS.ge b (Ranks.threshold r)); lia.
Qed.

Lemma matchPos_mono table b1 b2 :
  JS.lt b1 b2 = true -> (matchPos table b2 <= matchPos table b1)%nat.
Proof.
  intros Hlt. induction table as [|r rest IH]; cbn [matchPos]; [lia|].
  destruct (JS.ge b1 (Ranks.threshold r)) eqn:H1.
  - now rewrite (ge_lt_ge _ _ _ H1 Hlt).
  - destruct (JS.ge b2 (Ranks.threshold r)); lia.
Qed.

Lemma rankIn_matchPos table b :
  Ranks.rankIn table b = nth (matchPos table b) (map Ranks.name table) "VOID Peasant".
Proof.
  induction table as [|r rest IH]; cbn [matchPos Ranks.rankIn map nth]; [reflexivity|].
  destruct (JS.ge b (Ranks.threshold r)); [reflexivity | exact IH].
Qed.

Lemma rankIndex_of_position (k : nat) :
  (k <= 44)%nat ->
  Ranks.rankIndex (nth k (map Ranks.name Ranks.VOID_RANKS) "VOID Peasant")
  = Z.of_nat (Nat.min k 43).
Proof.
  intros Hk.
  do 45 (destruct k as [|k]; [vm_compute; reflexivity|]).
  lia.
Qed.

Lemma rankIndex_getVoidRank b :
  Ranks.rankIndex (Ranks.getVoidRank b)
  = Z.of_nat (Nat.min (matchPos Ranks.VOID_RANKS b) 43).
Proof.
  unfold Ranks.getVoidRank. rewrite rankIn_matchPos.
  apply rankIndex_of_position. apply (matchPos_le_length Ranks.VOID_RANKS b).
Qed.

Lemma below_all_thresholds b :
  JS.lt b 1%float = true ->
  forallb (fun r => negb (JS.ge b (Ranks.threshold r))) Ranks.VOID_RANKS = true.
Proof.
  intros Hb. apply forallb_forall. intros r Hr.
  destruct (JS.ge b (Ranks.threshold r)) eqn:Hge; [|reflexivity].
  pose proof (ge_lt_gt _ _ _ Hge Hb) as H.
  assert (forallb (fun r => negb (JS.gt 1%float (Ranks.threshold r))) Ranks.VOID_RANKS
          = true) as Hall by (vm_compute; reflexivity).
  rewrite forallb_forall in Hall. specialize (Hall r Hr).
  rewrite H in Hall. discriminate.
Qed.

Lemma rankIn_none table b :
  forallb (fun r => negb (JS.ge b (Ranks.threshold r))) table = true ->
  Ranks.rankIn table b = "VOID Peasant".
Proof.
  induction table as [|r rest IH]; cbn [forallb Ranks.rankIn]; [reflexivity|].
  intros H. apply andb_prop in H as [H1 H2].
  destruct (JS.ge b (Ranks.threshold r)); [discriminate | auto].
Qed.

(** C8. Rank assignment is monotone: for balances [b1 < b2] the table index
    of the rank of [b2] is at most that of the rank of [b1] (index 0 is the
    highest rank); and every balance below all thresholds, zero and negative
    ones included, gets the default lowest tier, which is the table's last
    entry. *)
Theorem rank_monotone :
  (forall b1 b2 : JS.number,
      JS.lt b1 b2 = true ->
      Ranks.rankIndex (Ranks.getVoidRank b2) <= Ranks.rankIndex (Ranks.getVoidRank b1))
  /\ (forall b : JS.number,
        JS.lt b 1%float = true ->
        Ranks.getVoidRank b = "VOID Peasant"
        /\ Ranks.rankIndex (Ranks.getVoidRank b) = Z.of_nat (List.length Ranks.VOID_RANKS) - 1)
  /\ Ranks.getVoidRank 0%float = "VOID Peasant"
  /\ Ranks.getVoidRank (-1)%float = "VOID Peasant".
Proof.
  split; [|split; [|split; vm_compute; reflexivity]].
  - intros b1 b2 Hlt. rewrite !rankIndex_getVoidRank.
    pose proof (matchPos_mono Ranks.VOID_RANKS b1 b2 Hlt). lia.
  - intros b Hb.
    assert (Ranks.getVoidRank b = "VOID Peasant") as E
      by (apply rankIn_none, below_all_thresholds, Hb).
    split; [exact E|]. rewrite E. vm_compute. reflexivity.
Qed.

Lemma rank_monotone_witness :
  Ranks.rankIndex (Ranks.getVoidRank 5000) <= Ranks.rankIndex (Ranks.getVoidRank 10)
  /\ Ranks.getVoidRank 0.5 = "VOID Peasant".
Proof.
  split.
  - apply (proj1 rank_monotone). reflexivity.
  - apply (proj1 (proj2 rank_monotone)). reflexivity.
Defined.

(** C9. For the rank at position [i] of the 44-entry table (0 = highest),
    the image selector [2 + Math.round(normalized * 43)], evaluated in
    binary64 arithmetic as the source does, is exactly the integer [45 - i]:
    45 for the highest rank, 2 for the lowest, one distinct integer of
    [2, 45] per rank, and the URL carries that number. *)
Theorem image_number_exact (i : nat) (r : Ranks.VoidRank) :
  nth_error Ranks.VOID_RANKS i = Some r ->
  Ranks.rankIndex (Ranks.name r) = Z.of_nat i
  /\ Ranks.imageNum i = JS.RInt (45 - Z.of_nat i)
  /\ 2 <= 45 - Z.of_nat i <= 45
  /\ Ranks.getRankImageUrl (Ranks.name r)
     = ("https://voidsolana.com/ranks/rank"
        ++ NilZero.string_of_int (Z.to_int (45 - Z.of_nat i)) ++ ".png")%string.
Proof.
  do 44 (destruct i as [|i];
         [intros H; injection H as <-; vm_compute; repeat split; congruence|]).
  destruct i; discriminate.
Qed.

Lemma image_number_exact_witness :
  Ranks.rankIndex "VOID Peasant" = 43
  /\ Ranks.imageNum 43 = JS.RInt 2
  /\ Ranks.getRankImageUrl "VOID Peasant" = "https://voidsolana.com/ranks/rank2.png".
Proof.
  destruct (image_number_exact 43 (Ranks.mkRank "VOID Peasant" 1) eq_refl)
    as (H1 & H2 & _ & H4).
  split; [exact H1|]. split; [exact H2 | exact H4].
Defined.

(** ** Transaction dedup *)

Lemma capacity_Z : Z.of_nat capacity = MAX_PROCESSED.
Proof. reflexivity. Qed.

Lemma setHas_In x s : setHas x s = true <-> In x s.
Proof.
  unfold setHas. rewrite existsb_exists. split.
  - intros [y [Hy E]]. apply String.eqb_eq in E. now subst.
  - intros H. exists x. split; [exact H | apply String.eqb_refl].
Qed.

Lemma setHas_notIn x s : setHas x s = false <-> ~ In x s.
Proof.
  rewrite <- setHas_In. destruct (setHas x s); split; congruence.
Qed.

Lemma distinctb_NoDup l : distinctb l = true -> NoDup l.
Proof.
  induction l as [|x rest IH]; cbn [distinctb]; intros H; constructor.
  - apply andb_prop in H as [H _]. apply negb_true_iff in H. now apply setHas_notIn.
  - apply andb_prop in H as [_ H]. auto.
Qed.

Lemma setDelete_absent x s : ~ In x s -> setDelete x s = s.
Proof.
  unfold setDelete. induction s as [|y rest IH]; cbn [filter]; intros H; [reflexivity|].
  destruct (String.eqb_spec y x) as [->|Hne]; cbn [negb].
  - exfalso. apply H. now left.
  - f_equal. apply IH. intros Hin. apply H. now right.
Qed.

Lemma setDelete_head x rest : NoDup (x :: rest) -> setDelete x (x :: rest) = rest.
Proof.
  intros H. inversion H as [|? ? Hx Hrest]; subst.
  unfold setDelete. cbn [filter]. rewrite String.eqb_refl. cbn [negb].
  now apply setDelete_absent.
Qed.

Lemma markProcessed_seen sig w :
  In sig w -> markProcessed sig w = (false, w).
Proof.
  intros H. unfold markProcessed. apply setHas_In in H. now rewrite H.
Qed.

Lemma markProcessed_fresh sig w :
  Window w -> ~ In sig w ->
  markProcessed sig w
  = (true, (if (capacity <=? List.length w)%nat then tl w else w) ++ [sig]).
Proof.
  intros (Hnd & Hlen & Hne) Hin. unfold markProcessed.
  apply setHas_notIn in Hin. rewrite Hin.
  pose proof capacity_Z as HC. unfold MAX_PROCESSED in *.
  destruct (Z.leb_spec 2000 (Z.of_nat (List.length w))) as [Hfull|Hroom];
    destruct (Nat.leb_spec capacity (List.length w)) as [Hfull'|Hroom']; try lia.
  - destruct w as [|first rest]; [cbn [List.length] in *; lia|].
    inversion Hne as [|? ? Hfirst _]; subst. unfold nonEmpty in Hfirst.
    rewrite Hfirst, setDelete_head by assumption. reflexivity.
  - reflexivity.
Qed.

Lemma Window_nil : Window [].
Proof. repeat split; [constructor | cbn; lia | constructor]. Qed.

Lemma Window_tl w : Window w -> Window (tl w).
Proof.
  intros (Hnd & Hlen & Hne). destruct w as [|x rest]; cbn [tl]; [repeat split; assumption|].
  inversion Hnd; inversion Hne; subst. cbn [List.length] in Hlen.
  repeat split; [assumption | lia | assumption].
Qed.

Lemma Window_step sig w :
  Window w -> nonEmpty sig -> Window (snd (markProcessed sig w)).
Proof.
  intros HW Hsig. destruct (setHas sig w) eqn:Hhas.
  - apply setHas_In in Hhas. now rewrite markProcessed_seen.
  - apply setHas_notIn in Hhas. rewrite markProcessed_fresh by assumption. cbn [snd].
    destruct (Nat.leb_spec capacity (List.length w)) as [Hfull|Hroom].
    + pose proof (Window_tl w HW) as (Hnd & Hlen & Hne).
      assert (~ In sig (tl w)) as Hin'
        by (intros Hin; apply Hhas; destruct w; [exact Hin | now right]).
      destruct HW as (_ & Hlenw & _).
      assert (List.length (tl w) < capacity)%nat as Hlt.
      { destruct w as [|x rest]; cbn [tl List.length] in *;
          [pose proof capacity_Z; unfold MAX_PROCESSED in *; lia | lia]. }
      repeat split.
      * apply NoDup_app; [assumption | repeat constructor; auto | ].
        intros y Hy [<-|[]]. contradiction.
      * rewrite length_app. cbn [List.length]. lia.
      * apply Forall_app. split; [assumption | repeat constructor; assumption].
    + destruct HW as (Hnd & Hlen & Hne). repeat split.
      * apply NoDup_app; [assumption | repeat constructor; auto | ].
        intros y Hy [<-|[]]. contradiction.
      * rewrite length_app. cbn [List.length]. lia.
      * apply Forall_app. split; [assumption | repeat constructor; assumption].
Qed.

Lemma markAll_snoc sigs x w :
  markAll (sigs ++ [x]) w = snd (markProcessed x (markAll sigs w)).
Proof. unfold markAll. now rewrite fold_left_app. Qed.

Lemma Window_markAll sigs w :
  Window w -> Forall nonEmpty sigs -> Window (markAll sigs w).
Proof.
  intros HW. induction sigs as [|x sigs IH] using rev_ind; intros Hne; [exact HW|].
  apply Forall_app in Hne as [Hs Hx]. inversion Hx; subst.
  rewrite markAll_snoc. apply Window_step; auto.
Qed.

Lemma tl_skipn {A} n (l : list A) : tl (skipn n l) = skipn (S n) l.
Proof.
  revert l. induction n as [|n IH]; intros [|x l]; try reflexivity.
  change (skipn (S n) (x :: l)) with (skipn n l). rewrite IH. reflexivity.
Qed.

Lemma markAll_fifo sigs :
  Forall nonEmpty sigs -> NoDup sigs ->
  markAll sigs [] = lastn capacity sigs.
Proof.
  induction sigs as [|x sigs IH] using rev_ind; intros Hne Hnd; [reflexivity|].
  apply Forall_app in Hne as [Hs Hx].
  assert (NoDup sigs /\ ~ In x sigs) as [Hnd' Hx'].
  { apply NoDup_remove with (l' := []) in Hnd. now rewrite app_nil_r in Hnd. }
  rewrite markAll_snoc.
  pose proof (Window_markAll sigs [] Window_nil Hs) as HW.
  rewrite IH in * by assumption.
  assert (~ In x (lastn capacity sigs)) as Hfresh.
  { intros Hin. apply Hx'. unfold lastn in Hin.
    rewrite <- (firstn_skipn (List.length sigs - capacity) sigs).
    apply in_or_app. now right. }
  rewrite markProcessed_fresh by assumption. cbn [snd].
  unfold lastn in *. rewrite length_skipn, length_app. cbn [List.length].
  pose proof capacity_Z as HC. unfold MAX_PROCESSED in HC.
  destruct (Nat.leb_spec capacity (List.length sigs - (List.length sigs - capacity))) as [Hfull|Hroom].
  - rewrite tl_skipn.
    replace (List.length sigs + 1 - capacity)%nat with (S (List.length sigs - capacity)) by lia.
    rewrite skipn_app.
    replace (S (List.length sigs - capacity) - List.length sigs)%nat with 0%nat by lia.
    reflexivity.
  - replace (List.length sigs - capacity)%nat with 0%nat by lia.
    replace (List.length sigs + 1 - capacity)%nat with 0%nat by lia.
    reflexivity.
Qed.

(** C3. For signatures as the ledger has them (base58 text, hence non-empty
    strings; [pollForSwaps] is the only caller), the window holds at most
    2000 of them after every operation; a signature still in the window is
    reported as seen and leaves the window as it was, order included; and
    eviction is first-in first-out: after distinct signatures the window is
    the last 2000 of them, so that after 2001 the first one is gone, is
    taken as unseen when it comes back, and the other 2000 are seen. *)
Theorem dedup_window_fifo (sigs : list string) :
  Forall nonEmpty sigs ->
  let w := markAll sigs [] in
  Z.of_nat (List.length w) <= MAX_PROCESSED
  /\ (forall s, In s w -> markProcessed s w = (false, w))
  /\ (NoDup sigs -> w = lastn (Z.to_nat MAX_PROCESSED) sigs)
  /\ (NoDup sigs -> Z.of_nat (List.length sigs) = MAX_PROCESSED + 1 ->
      exists first rest,
        sigs = first :: rest
        /\ w = rest
        /\ fst (markProcessed first w) = true
        /\ forall s, In s rest -> markProcessed s w = (false, w)).
Proof.
  intros Hne. cbv zeta.
  pose proof (Window_markAll sigs [] Window_nil Hne) as (Hnd & Hlen & Hall).
  pose proof capacity_Z as HC.
  split; [lia|]. split; [intros s Hs; now apply markProcessed_seen|].
  split; [intros Hd; now apply markAll_fifo|].
  intros Hd Hlen'.
  destruct sigs as [|first rest]; [cbn in Hlen'; unfold MAX_PROCESSED in *; lia|].
  exists first, rest.
  assert (markAll (first :: rest) [] = rest) as Hw.
  { rewrite markAll_fifo by assumption. unfold lastn.
    replace (List.length (first :: rest) - capacity)%nat with 1%nat; [reflexivity|].
    cbn [List.length] in *. unfold MAX_PROCESSED in *. lia. }
  split; [reflexivity|]. split; [exact Hw|]. rewrite Hw.
  split.
  - inversion Hd as [|? ? Hfirst _]; subst first rest.
    unfold markProcessed. apply setHas_notIn in Hfirst. now rewrite Hfirst.
  - intros s Hs. now apply markProcessed_seen.
Qed.

Lemma sampleSigs_nonEmpty : Forall nonEmpty sampleSigs.
Proof.
  apply Forall_forall. intros s Hs. apply in_map_iff in Hs as [n [<- _]]. reflexivity.
Qed.

Lemma sampleSigs_NoDup : NoDup sampleSigs.
Proof. apply distinctb_NoDup. vm_compute. reflexivity. Qed.

Lemma sampleSigs_length : Z.of_nat (List.length sampleSigs) = MAX_PROCESSED + 1.
Proof. vm_compute. reflexivity. Qed.

Lemma dedup_window_fifo_witness :
  Z.of_nat (List.length (markAll sampleSigs [])) <= MAX_PROCESSED
  /\ exists first rest,
       sampleSigs = first :: rest
       /\ markAll sampleSigs [] = rest
       /\ fst (markProcessed first (markAll sampleSigs [])) = true
       /\ forall s, In s rest ->
            markProcessed s (markAll sampleSigs []) = (false, markAll sampleSigs []).
Proof.
  pose proof (dedup_window_fifo sampleSigs sampleSigs_nonEmpty) as H.
  destruct H as (H1 & _ & _ & H4).
  split; [exact H1|].
  exact (H4 sampleSigs_NoDup sampleSigs_length).
Defined.

Lemma markAll_sampleWithEmpty : markAll sampleWithEmpty [] = sampleWithEmpty.
Proof. vm_compute. reflexivity. Qed.

(** Why the signatures are taken non-empty: the eviction is guarded by
    [if (first)], so the empty string, which no signature is, would stay
    when it is the oldest entry, and the window would hold 2001 entries. *)
Lemma empty_string_is_not_evicted :
  NoDup sampleWithEmpty
  /\ Z.of_nat (List.length sampleWithEmpty) = MAX_PROCESSED + 1
  /\ Z.of_nat (List.length (markAll sampleWithEmpty [])) = MAX_PROCESSED + 1
  /\ hd_error sampleWithEmpty = Some ""
  /\ markProcessed "" (markAll sampleWithEmpty [])
     = (false, markAll sampleWithEmpty []).
Proof.
  rewrite markAll_sampleWithEmpty.
  split; [apply distinctb_NoDup; vm_compute; reflexivity|].
  split; [vm_compute; reflexivity|].
  split; [vm_compute; reflexivity|].
  split; [reflexivity|].
  apply markProcessed_seen. now left.
Qed.

(** ** The poll loop *)

Lemma pollLoop_rate_limited cfg start finish b :
  pollLoop cfg RATE_LIMITED start finish b
  = (Z.min (b * 2) 60000,
     Z.max 0 (BASE_INTERVAL cfg - (finish - start))
     + (if 1000 <? Z.min (b * 2) 60000 then Z.min (b * 2) 60000 else 0)).
Proof. reflexivity. Qed.

Lemma pollLoop_bounds cfg r start finish b :
  1000 <= b <= 60000 ->
  1000 <= fst (pollLoop cfg r start finish b) <= 60000.
Proof.
  intros Hb. unfold pollLoop. cbn [fst].
  destruct r as [|text]; [lia|].
  destruct (JS.includes "429" text); lia.
Qed.

Lemma backoffAfter_snoc cfg cycles r s f :
  backoffAfter cfg (cycles ++ [(r, s, f)])
  = fst (pollLoop cfg r s f (backoffAfter cfg cycles)).
Proof. unfold backoffAfter. now rewrite fold_left_app. Qed.

Lemma backoffAfter_bounds cfg cycles :
  1000 <= backoffAfter cfg cycles <= 60000.
Proof.
  induction cycles as [|[[r s] f] cycles IH] using rev_ind.
  - cbv. split; discriminate.
  - rewrite backoffAfter_snoc. now apply pollLoop_bounds.
Qed.

Lemma backoffAfter_rate_limits cfg cycles s f n :
  backoffAfter cfg (cycles ++ repeat (RATE_LIMITED, s, f) n)
  = Z.min (backoffAfter cfg cycles * 2 ^ Z.of_nat n) 60000.
Proof.
  pose proof (backoffAfter_bounds cfg cycles) as Hb.
  induction n as [|n IH].
  - cbn [repeat]. rewrite app_nil_r. change (2 ^ Z.of_nat 0) with 1. lia.
  - replace (repeat (RATE_LIMITED, s, f) (S n))
      with (repeat (RATE_LIMITED, s, f) n ++ [(RATE_LIMITED, s, f)])
      by (rewrite <- repeat_cons; reflexivity).
    rewrite app_assoc, backoffAfter_snoc, IH, pollLoop_rate_limited. cbn [fst].
    rewrite Nat2Z.inj_succ, Z.pow_succ_r by lia.
    assert (0 < 2 ^ Z.of_nat n) by (apply Z.pow_pos_nonneg; lia).
    nia.
Qed.

(** C7. After any history of cycles: a rate-limit (429) answer doubles the
    backoff, capped at 60 s, and the extra delay of the next cycle is that
    new backoff; a successful cycle resets the backoff to 1 s; whatever the
    outcome the next cycle is set [max(0, baseline - elapsed)] plus the
    extra backoff later, which is never less than without backoff; and the
    counter starts at 1 s, so that [n] rate limits in a row, from the start
    or after a success, give [min(1000 * 2^n, 60000)]. *)
Theorem poll_backoff (cfg : Config) (cycles : list (PollResult * Z * Z))
    (start finish : Z) :
  let backoff := backoffAfter cfg cycles in
  let baseline := Z.max 0 (BASE_INTERVAL cfg - (finish - start)) in
  (* a rate-limit response doubles the backoff up to the cap, and the extra
     delay is the new backoff *)
  pollLoop cfg RATE_LIMITED start finish backoff
  = (Z.min (backoff * 2) 60000, baseline + Z.min (backoff * 2) 60000)
  (* a successful cycle resets it, and adds nothing *)
  /\ pollLoop cfg PollOk start finish backoff = (1000, baseline)
  (* whatever the outcome, the delay is the baseline plus the extra backoff *)
  /\ (forall result,
        let backoff' := fst (pollLoop cfg result start finish backoff) in
        let delay := snd (pollLoop cfg result start finish backoff) in
        delay = baseline + (if 1000 <? backoff' then backoff' else 0)
        /\ baseline <= delay
        /\ 1000 <= backoff' <= 60000)
  (* from the start or after a success, n rate limits in a row give
     min(1000 * 2^n, 60000) *)
  /\ initialBackoff = 1000
  /\ (forall n s f,
        backoffAfter cfg (repeat (RATE_LIMITED, s, f) n)
        = Z.min (1000 * 2 ^ Z.of_nat n) 60000)
  /\ (forall n s f,
        backoffAfter cfg
          ((cycles ++ [(PollOk, start, finish)])
           ++ repeat (RATE_LIMITED, s, f) n)
        = Z.min (1000 * 2 ^ Z.of_nat n) 60000).
Proof.
  cbv zeta. pose proof (backoffAfter_bounds cfg cycles) as Hb.
  split; [|split; [|split; [|split; [|split]]]].
  - rewrite pollLoop_rate_limited.
    destruct (Z.ltb_spec 1000 (Z.min (backoffAfter cfg cycles * 2) 60000)); [reflexivity | lia].
  - unfold pollLoop. change (1000 <? 1000) with false. cbv iota. f_equal. lia.
  - intros result. pose proof (pollLoop_bounds cfg result start finish _ Hb) as Hb'.
    split; [reflexivity|]. split; [|exact Hb'].
    unfold pollLoop in *. cbn [fst snd] in *.
    match goal with |- _ <= _ + (if ?c then _ else _) => destruct c end; lia.
  - reflexivity.
  - intros n s f. apply (backoffAfter_rate_limits cfg [] s f n).
  - intros n s f. rewrite backoffAfter_rate_limits, backoffAfter_snoc. reflexivity.
Qed.

Lemma poll_backoff_witness :
  pollLoop (defaultConfig "mint" "pool") RATE_LIMITED 0 1200 4000
  = (8000, 28800 + 8000)
  /\ pollLoop (defaultConfig "mint" "pool") PollOk 0 1200 4000
     = (1000, 28800).
Proof.
  pose proof (poll_backoff (defaultConfig "mint" "pool")
                [(RATE_LIMITED, 0, 10); (RATE_LIMITED, 0, 10)] 0 1200)
    as (H1 & H2 & _).
  split; [exact H1 | exact H2].
Defined.

(** ** The price cache *)

(** C6. A call made less than 30 s after the cached snapshot was captured
    returns the cached values, leaves the cache as it is and sends no
    request; a call made when the snapshot is 30 s old or older sends exactly
    one request and returns what that request gave (nothing when it failed),
    never the stale snapshot; and of two calls, the second made less than
    30 s after the capture of the snapshot the first one returned, the second
    returns the same values without a request. *)
Theorem price_cache_freshness :
  (forall c now response captured,
      now - ts c < 30000 ->
      getVoidPrice now response captured (Some c)
      = (Some (mkPrice (cached_usd c) (cached_solPrice c)),
         Some c, 0%nat))
  /\ (forall c now response captured,
        30000 <= now - ts c ->
        getVoidPrice now response captured (Some c)
        = match response with
          | Pair u s =>
              (Some (mkPrice u s), Some (mkCached u s captured), 1%nat)
          | _ => (None, Some c, 1%nat)
          end)
  /\ (forall cache now1 response1 captured1 p1,
        fst (fst (getVoidPrice now1 response1 captured1 cache)) = Some p1 ->
        exists c1,
          snd (fst (getVoidPrice now1 response1 captured1 cache)) = Some c1
          /\ forall now2 response2 captured2,
               now2 - ts c1 < 30000 ->
               getVoidPrice now2 response2 captured2 (Some c1)
               = (Some p1, Some c1, 0%nat)).
Proof.
  assert (forall c now response captured,
      now - ts c < 30000 ->
      getVoidPrice now response captured (Some c)
      = (Some (mkPrice (cached_usd c) (cached_solPrice c)),
         Some c, 0%nat)) as Hfresh.
  { intros c now response captured H. unfold getVoidPrice.
    destruct (Z.ltb_spec (now - ts c) 30000); [reflexivity | lia]. }
  split; [exact Hfresh|]. split.
  - intros c now response captured H. unfold getVoidPrice.
    destruct (Z.ltb_spec (now - ts c) 30000); [lia|].
    destruct response; reflexivity.
  - intros cache now1 response1 captured1 p1 H1.
    unfold getVoidPrice in H1. unfold getVoidPrice at 1.
    destruct cache as [c|].
    + destruct (Z.ltb_spec (now1 - ts c) 30000).
      * cbn [fst snd] in *. injection H1 as <-. exists c. split; [reflexivity|].
        intros now2 response2 captured2 H2. now apply Hfresh.
      * destruct response1 as [| |u s]; cbn [fst snd] in *; try discriminate.
        injection H1 as <-. eexists. split; [reflexivity|].
        intros now2 response2 captured2 H2. now rewrite Hfresh.
    + destruct response1 as [| |u s]; cbn [fst snd] in *; try discriminate.
      injection H1 as <-. eexists. split; [reflexivity|].
      intros now2 response2 captured2 H2. now rewrite Hfresh.
Qed.

Lemma price_cache_freshness_witness :
  getVoidPrice 1029999 FetchThrew 1030500
    (Some (mkCached 0.25%float 0.001%float 1000000))
  = (Some (mkPrice 0.25%float 0.001%float), Some (mkCached 0.25%float 0.001%float 1000000), 0%nat)
  /\ getVoidPrice 1030000 FetchThrew 1030500
       (Some (mkCached 0.25%float 0.001%float 1000000))
     = (None, Some (mkCached 0.25%float 0.001%float 1000000), 1%nat).
Proof.
  destruct price_cache_freshness as (H1 & H2 & _). split.
  - apply (H1 (mkCached 0.25%float 0.001%float 1000000)). cbn. lia.
  - apply (H2 (mkCached 0.25%float 0.001%float 1000000) 1030000 FetchThrew). cbn. lia.
Defined.

(** ** The message queue *)

(** Unfolds one delivery down to the answers of the API. *)
Ltac unfold_delivery :=
  unfold deliver, tryCatch, bind, sendPhoto, sendMessage, send, logLine,
    pinChatMessage, ret.
Ltac step_telegram := cbn [apiCalls channel pinned logged snd].

Lemma consistent_startBot : consistent startBot.
Proof. intros _. reflexivity. Qed.

Lemma consistent_processQueue b : consistent b -> consistent (processQueue b).
Proof.
  unfold consistent, processQueue. intros Hc.
  destruct (isSending b) eqn:Hs; [now rewrite Hs|].
  destruct (messageQueue b); cbn [isSending]; [now rewrite Hs | discriminate].
Qed.

Lemma consistent_enqueue msg b : consistent b -> consistent (enqueue msg b).
Proof. intros Hc. apply consistent_processQueue. exact Hc. Qed.

Lemma consistent_settle api b : consistent b -> consistent (settle api b).
Proof.
  unfold consistent, settle. intros Hc.
  destruct (sending b) eqn:Hs; cbn [isSending sending]; [reflexivity|].
  intros H. now rewrite Hs.
Qed.

Lemma pending_enqueue msg b :
  consistent b -> pending (enqueue msg b) = S (pending b).
Proof.
  intros Hc. unfold enqueue, processQueue, pending.
  cbn [isSending messageQueue sending].
  destruct (isSending b) eqn:Hs.
  - cbn [messageQueue sending]. rewrite length_app. cbn [List.length].
    destruct (sending b); lia.
  - rewrite (Hc Hs).
    destruct (messageQueue b) as [|m rest]; cbn [app messageQueue sending List.length].
    + reflexivity.
    + rewrite length_app. cbn [List.length]. lia.
Qed.

(** C5. With both thresholds at 25 and a price at hand, a buy whose USD value
    [voidAmount * price.usd] is 24.99 leaves the queue as it is, whatever the
    buyer's balance, and one whose USD value is exactly 25 makes exactly one
    call to [enqueue]: one more notification is pending. *)
Theorem threshold_suppression (cfg : Config) (p : Price)
    (currentSupply : JS.number) (signature buyerAddress : string)
    (voidAmount currentBalance : JS.number) (b : Bot) :
  MIN_BUY_USD cfg = 25%float ->
  MIN_ARB_USD cfg = 25%float ->
  consistent b ->
  ((voidAmount * usd p)%float = 24.99%float ->
   handleBuy cfg (Some p) currentSupply signature buyerAddress
     voidAmount currentBalance b = b)
  /\ ((voidAmount * usd p)%float = 25%float ->
      handleBuy cfg (Some p) currentSupply signature buyerAddress
        voidAmount currentBalance b
      = enqueue
          (buyMessage cfg p currentSupply signature buyerAddress
             voidAmount currentBalance
             (if isArbitrageBalance cfg currentBalance then "🤖🔩" else "🟣🔥")) b
      /\ pending
           (handleBuy cfg (Some p) currentSupply signature buyerAddress
              voidAmount currentBalance b)
         = S (pending b)).
Proof.
  intros Hbuy Harb Hc. unfold handleBuy. rewrite Hbuy, Harb.
  split; intros Husd; rewrite Husd.
  - change (JS.lt 24.99%float 25%float) with true.
    destruct (isArbitrageBalance cfg currentBalance); reflexivity.
  - change (JS.lt 25%float 25%float) with false.
    rewrite !andb_false_r.
    assert (Ranks.getBuyEmojis 25 (isArbitrageBalance cfg currentBalance)
            = Some (if isArbitrageBalance cfg currentBalance then "🤖🔩" else "🟣🔥"))
      as -> by (destruct (isArbitrageBalance cfg currentBalance); reflexivity).
    split; [reflexivity | now apply pending_enqueue].
Qed.

Lemma threshold_suppression_witness :
  pending
    (handleBuy sampleConfig (Some (mkPrice 0.25 0.001)) 99000000 "5sig" bob 100 700
       startBot)
  = 1%nat.
Proof.
  refine (proj2 (proj2 (threshold_suppression sampleConfig
            (mkPrice 0.25 0.001) 99000000 "5sig" bob 100 700
            startBot eq_refl eq_refl (fun _ => eq_refl)) eq_refl)).
Defined.

(** The photo is refused and the text accepted: one message, the text. *)
Lemma deliver_text_fallback api msg tg :
  api (apiCalls tg) = false ->
  api (S (apiCalls tg)) = true ->
  channel (snd (deliver api msg tg)) = channel tg ++ [TextMessage (caption msg)].
Proof.
  intros Hphoto Htext. unfold_delivery.
  rewrite Hphoto. step_telegram. rewrite Htext.
  destruct (pin msg); step_telegram;
    [destruct (api (S (S (apiCalls tg))))|]; reflexivity.
Qed.

(** Both sends are refused: no message. *)
Lemma deliver_both_fail api msg tg :
  api (apiCalls tg) = false ->
  api (S (apiCalls tg)) = false ->
  channel (snd (deliver api msg tg)) = channel tg.
Proof.
  intros Hphoto Htext. unfold_delivery.
  rewrite Hphoto. step_telegram. rewrite Htext. reflexivity.
Qed.

(** Whatever the delivery gave, the timeout takes the next message. *)
Lemma queue_advances api msg next rest tg :
  onTimeout (settle api (mkBot (next :: rest) true (Some msg) false tg))
  = mkBot rest true (Some next) false (snd (deliver api msg tg)).
Proof. reflexivity. Qed.

(** C1. What the code does where the claim fails: for a pin-flagged message
    whose photo is accepted and whose pin is refused, the rejection of the pin
    is caught by the handler of the photo send, which sends the caption again
    as text: if that send is accepted, two messages reach the channel, the
    photo and the text. *)
Theorem pin_failure_sends_twice (api : nat -> bool) (msg : QueuedMessage)
    (tg : Telegram) :
  pin msg = true ->
  api (apiCalls tg) = true ->
  api (S (apiCalls tg)) = false ->
  api (S (S (apiCalls tg))) = true ->
  channel (snd (deliver api msg tg))
  = channel tg ++ [PhotoMessage (photo msg) (caption msg); TextMessage (caption msg)].
Proof.
  intros Hpin Hphoto Hpinned Htext. unfold_delivery.
  rewrite Hpin, Hphoto. step_telegram.
  rewrite Hpinned. step_telegram.
  rewrite Htext. step_telegram.
  destruct (api (S (S (S (apiCalls tg))))); step_telegram; now rewrite <- app_assoc.
Qed.

Lemma pin_failure_sends_twice_witness :
  channel (telegram (settle pinRefused (enqueue burnNotice startBot)))
  = [PhotoMessage "https://voidsolana.com/burn.jpg" sampleCaption;
     TextMessage sampleCaption].
Proof.
  exact (pin_failure_sends_twice pinRefused burnNotice (mkTelegram 0 [] [] [])
           eq_refl eq_refl eq_refl eq_refl).
Defined.

(** ** Classification *)

(** *** Burn detection *)

Section BurnLoops.

Variable cfg : Config.
Variable sig : string.
Variables pre post : list TokenBalance.

Lemma burnSink_Burn transfers e :
  burnSink cfg sig pre post transfers = Some e ->
  exists o a, e = Burn sig o a.
Proof.
  induction transfers as [|t rest IH]; cbn [burnSink]; [discriminate|].
  destruct (JS.gt (gainOf pre t) 0); [|exact IH].
  intros H. injection H as <-. eauto.
Qed.

Lemma burnByLog_first before X after :
  (forall Y, In Y before -> burnsAt cfg pre post Y = false) ->
  burnByLog cfg sig pre post (before ++ X :: after)
  = if burnsAt cfg pre post X
    then Some (Burn sig (owner X) (lossOf post X))
    else burnByLog cfg sig pre post after.
Proof.
  induction before as [|Y before IH]; intros Hb; cbn [app burnByLog].
  - unfold burnsAt. destruct (isVoid cfg X); cbn [negb andb]; [|reflexivity].
    destruct (JS.gt (lossOf post X) 0); cbn [andb]; reflexivity.
  - pose proof (Hb Y (or_introl eq_refl)) as HY. unfold burnsAt in HY.
    rewrite <- IH by (intros Z HZ; apply Hb; now right).
    destruct (isVoid cfg Y); cbn [negb andb] in *; [|reflexivity].
    destruct (JS.gt (lossOf post Y) 0); cbn [andb] in *; [|reflexivity].
    now rewrite HY.
Qed.

Lemma burnByLog_Some l e :
  burnByLog cfg sig pre post l = Some e ->
  exists Y, In Y l /\ burnsAt cfg pre post Y = true
            /\ e = Burn sig (owner Y) (lossOf post Y).
Proof.
  induction l as [|Y l IH]; cbn [burnByLog]; [discriminate|].
  intros H.
  assert (burnByLog cfg sig pre post l = Some e ->
          exists Y0, In Y0 (Y :: l) /\ burnsAt cfg pre post Y0 = true
                     /\ e = Burn sig (owner Y0) (lossOf post Y0)) as Hrest.
  { intros H'. destruct (IH H') as (Y0 & Hin & Hb & He). exists Y0. auto using in_cons. }
  destruct (isVoid cfg Y) eqn:Hv; cbn [negb] in H; [|auto].
  destruct (JS.gt (lossOf post Y) 0) eqn:Hl; [|auto].
  destruct (JS.lt (poolGain cfg pre post) (lossOf post Y * 0.9)) eqn:Hp; [|auto].
  injection H as <-. exists Y. unfold burnsAt. rewrite Hv, Hl, Hp. auto using in_eq.
Qed.

Lemma burnByLog_None l :
  (forall Y, In Y l -> burnsAt cfg pre post Y = false) ->
  burnByLog cfg sig pre post l = None.
Proof.
  intros H. destruct (burnByLog cfg sig pre post l) as [e|] eqn:E; [|reflexivity].
  apply burnByLog_Some in E as (Y & Hin & Hb & _). rewrite (H Y Hin) in Hb. discriminate.
Qed.

Lemma buyDetection_Buy payer e :
  buyDetection cfg sig pre post payer = Some e ->
  e = Buy sig (buyer (sweep cfg pre post payer))
          (totalBought (sweep cfg pre post payer))
          (maxBuyerBalance (sweep cfg pre post payer))
  /\ isTrade (sweep cfg pre post payer) = true
  /\ JS.gt (totalBought (sweep cfg pre post payer)) 0.01 = true.
Proof.
  unfold buyDetection.
  destruct (isTrade (sweep cfg pre post payer)); [|discriminate].
  destruct (JS.gt (totalBought (sweep cfg pre post payer)) 0.01); [|discriminate].
  cbn [andb].
  destruct (negb (buyer (sweep cfg pre post payer) =? HELPER_WALLET)%string); [|discriminate].
  intros H. injection H as <-. auto.
Qed.

Lemma poolGain_spec :
  poolEntryTracked cfg pre -> poolEntryTracked cfg post ->
  poolGain cfg pre post = specPoolGain cfg pre post.
Proof.
  unfold poolEntryTracked, poolGain, specPoolGain. now intros -> ->.
Qed.

End BurnLoops.

(** C2 (amended). For a transaction with a burn marker in its log and no
    gain at a burn sink, whose first pool-owned pre and post entries are
    entries of the tracked mint, and a tracked-mint account [X] with
    [loss > 0] before which no entry of the pre-balance list meets the burn
    test: a Burn of [loss] attributed to the owner of [X] is emitted if and
    only if [poolGain < loss * 0.9], where [poolGain] is the pool's gain in
    the tracked mint; and when the test fails for [X] and for every later
    entry, no Burn is emitted at all. *)
Theorem burn_by_marker (cfg : Config) (sig : string) (tx : ParsedTransaction)
    (m : Meta) (before after : list TokenBalance) (X : TokenBalance) :
  let pre := preTokenBalances m in
  let post := postTokenBalances m in
  meta tx = Some m ->
  isBurnLog (logMessages m) = true ->
  burnSink cfg sig pre post (deadTransfers cfg post) = None ->
  poolEntryTracked cfg pre ->
  poolEntryTracked cfg post ->
  pre = before ++ X :: after ->
  isVoid cfg X = true ->
  JS.gt (lossOf post X) 0 = true ->
  (forall Y, In Y before -> burnsAt cfg pre post Y = false) ->
  (processTransaction cfg sig (Some tx) = Some (Burn sig (owner X) (lossOf post X))
   <-> JS.lt (specPoolGain cfg pre post) (lossOf post X * 0.9) = true)
  /\ (JS.lt (specPoolGain cfg pre post) (lossOf post X * 0.9) = false ->
      (forall Y, In Y after -> burnsAt cfg pre post Y = false) ->
      forall s o a, processTransaction cfg sig (Some tx) <> Some (Burn s o a)).
Proof.
  intros pre post Hm Hlog Hsink Hpre Hpost Hsplit Hvoid Hloss Hbefore.
  pose proof (poolGain_spec cfg pre post Hpre Hpost) as Hgain.
  assert (processTransaction cfg sig (Some tx)
          = match (if burnsAt cfg pre post X
                   then Some (Burn sig (owner X) (lossOf post X))
                   else burnByLog cfg sig pre post after) with
            | Some e => Some e
            | None => buyDetection cfg sig pre post (feePayer tx)
            end) as Hrun.
  { unfold processTransaction. rewrite Hm. cbv zeta. fold pre. fold post.
    rewrite Hsink, Hlog.
    rewrite <- (burnByLog_first cfg sig pre post before X after Hbefore).
    now rewrite <- Hsplit. }
  assert (burnsAt cfg pre post X
          = JS.lt (specPoolGain cfg pre post) (lossOf post X * 0.9)) as HX.
  { unfold burnsAt. now rewrite Hvoid, Hloss, Hgain. }
  rewrite Hrun, HX. split; [split|].
  - intros H.
    destruct (JS.lt (specPoolGain cfg pre post) (lossOf post X * 0.9)) eqn:Hlt;
      [reflexivity|].
    destruct (burnByLog cfg sig pre post after) as [e|] eqn:E.
    + apply burnByLog_Some in E as (Y & _ & HY & He). subst e.
      injection H as _ Ha. unfold burnsAt in HY.
      apply andb_prop in HY as [_ HY]. rewrite Hgain, Ha, Hlt in HY. discriminate.
    + apply buyDetection_Buy in H as [H _]. discriminate.
  - intros ->. reflexivity.
  - intros -> Hafter s o a H. rewrite (burnByLog_None _ _ _ _ _ Hafter) in H.
    apply buyDetection_Buy in H as [H _]. discriminate.
Qed.

Lemma burn_by_marker_witness :
  processTransaction sampleConfig "5sig" (Some burnTx)
  = Some (Burn "5sig" (Some alice) 100).
Proof.
  refine (proj2 (proj1 (burn_by_marker sampleConfig "5sig" burnTx _ [] _ _
            eq_refl eq_refl eq_refl eq_refl eq_refl eq_refl eq_refl eq_refl _)) eq_refl).
  intros Y [].
Defined.

(** The pool takes in 99 of the 100 tokens Alice lost: no event. *)
Lemma sale_is_no_burn :
  specPoolGain sampleConfig
    [entry 1 "VoidMint1111" alice 100; entry 2 "VoidMint1111" "PoolState1111" 1000]
    [entry 1 "VoidMint1111" alice 0; entry 2 "VoidMint1111" "PoolState1111" 1099]
  = 99%float
  /\ processTransaction sampleConfig "5sig" (Some sellTx) = None.
Proof. split; vm_compute; reflexivity. Qed.

(** Two accounts lose tokens in a transaction with a burn marker, the pool
    gains nothing: Bob's loss of 50 meets the test, yet the only event is the
    Burn of Alice's 100, whose entry comes first. *)
Lemma burn_by_marker_counterexample :
  meta twoBurnsTx = Some (mkMeta twoBurnsPre twoBurnsPost burnLog)
  /\ isBurnLog burnLog = true
  /\ deadTransfers sampleConfig twoBurnsPost = []
  /\ In bobBefore twoBurnsPre
  /\ isVoid sampleConfig bobBefore = true
  /\ lossOf twoBurnsPost bobBefore = 50%float
  /\ JS.gt (lossOf twoBurnsPost bobBefore) 0 = true
  /\ specPoolGain sampleConfig twoBurnsPre twoBurnsPost = 0%float
  /\ JS.lt (specPoolGain sampleConfig twoBurnsPre twoBurnsPost)
           (lossOf twoBurnsPost bobBefore * 0.9) = true
  /\ processTransaction sampleConfig "5sig" (Some twoBurnsTx)
     = Some (Burn "5sig" (Some alice) 100)
  /\ processTransaction sampleConfig "5sig" (Some twoBurnsTx)
     <> Some (Burn "5sig" (owner bobBefore) (lossOf twoBurnsPost bobBefore)).
Proof.
  repeat split; try (vm_compute; reflexivity).
  - right. now left.
  - intros H. vm_compute in H. discriminate.
Qed.

(** The pool lookup of 1.C takes the first entry owned by the pool whatever
    its mint.  When the pool's account of the other mint comes first, the
    sale in which the pool takes in 99 of the 100 tokens is reported as a
    Burn of 100. *)
Lemma pool_gain_reads_other_mint :
  meta sellTxOtherMintFirst = Some (mkMeta otherFirstPre otherFirstPost burnLog)
  /\ specPoolGain sampleConfig otherFirstPre otherFirstPost = 99%float
  /\ JS.lt 99 (100 * 0.9) = false
  /\ poolGain sampleConfig otherFirstPre otherFirstPost = (-0.5)%float
  /\ processTransaction sampleConfig "5sig" (Some sellTxOtherMintFirst)
     = Some (Burn "5sig" (Some alice) 100).
Proof. repeat split; vm_compute; reflexivity. Qed.

(** *** Buy detection *)

Section Sweep.

Variable cfg : Config.
Variable pre : list TokenBalance.





Lemma sweep_no_gain l s :
  (forall p, In p l -> isVoid cfg p = true -> JS.gt (deltaOf pre p) 0 = false) ->
  buyer (fold_left (sweepStep cfg pre) l s) = buyer s
  /\ maxBuyerBalance (fold_left (sweepStep cfg pre) l s) = maxBuyerBalance s.
Proof.
  revert s. induction l as [|p l IH]; intros s H; cbn [fold_left]; [auto|].
  destruct (IH (sweepStep cfg pre s p)) as [Hb Hm]; [intros q Hq; apply H; now right|].
  rewrite Hb, Hm. pose proof (H p (or_introl eq_refl)) as Hp.
  unfold sweepStep. destruct (isVoid cfg p); cbn [negb]; [|auto].
  rewrite (Hp eq_refl).
  destruct (JS.lt (deltaOf pre p) 0); [destruct (isPool cfg p)|]; auto.
Qed.

End Sweep.





(** C10. For a transaction in which no tracked-mint balance increased, every
    Buy event emitted is attributed to the fee payer with a resulting balance
    of 0, for the total the pool side lost, above the dust floor; with a
    positive arbitrage balance threshold [handleBuy] treats that event as an
    arbitrage: the balance 0 is below the threshold, the USD value is tested
    against [MIN_ARB_USD] only, and what is enqueued is the arbitrage
    notification (arbitrage emojis, arbitrage image, arbitrage caption).
    And such an event is emitted as soon as no burn matched, the sweep
    marked a trade above the dust floor and the fee payer is not the helper
    wallet. *)
Theorem fee_payer_attribution (cfg : Config) (sig : string) (tx : ParsedTransaction)
    (m : Meta) :
  let pre := preTokenBalances m in
  let post := postTokenBalances m in
  let swept := sweep cfg pre post (feePayer tx) in
  meta tx = Some m ->
  (forall p, In p post -> isVoid cfg p = true -> JS.gt (deltaOf pre p) 0 = false) ->
  (forall s who amount balance,
      processTransaction cfg sig (Some tx) = Some (Buy s who amount balance) ->
      s = sig /\ who = feePayer tx /\ balance = 0%float
      /\ isTrade swept = true
      /\ amount = totalBought swept
      /\ JS.gt amount 0.01 = true
      /\ (JS.lt 0 (ARB_BALANCE_THRESHOLD cfg) = true ->
          isArbitrageBalance cfg balance = true
          /\ forall (p : Price) (currentSupply : JS.number) (b : Bot),
               let usdValue := (amount * usd p)%float in
               let totalBurned := (VOID_TOTAL_SUPPLY - currentSupply)%float in
               handleBuy cfg (Some p) currentSupply s who amount balance b
               = if JS.lt usdValue (MIN_ARB_USD cfg) then b
                 else match Ranks.getBuyEmojis usdValue true with
                      | None => b
                      | Some emojis =>
                          enqueue
                            (mkMsg (ARB_IMAGE_URL cfg)
                               (BuyCaption emojis amount usdValue (usd p)
                                  (usd p * currentSupply) totalBurned
                                  (totalBurned / VOID_TOTAL_SUPPLY * 100)
                                  s who true balance (Ranks.getVoidRank balance))
                               false)
                            b
                      end))
  /\ (burnSink cfg sig pre post (deadTransfers cfg post) = None ->
      (if isBurnLog (logMessages m) then burnByLog cfg sig pre post pre else None) = None ->
      isTrade swept = true ->
      JS.gt (totalBought swept) 0.01 = true ->
      feePayer tx <> HELPER_WALLET ->
      processTransaction cfg sig (Some tx)
      = Some (Buy sig (feePayer tx) (totalBought swept) 0)).
Proof.
  intros pre post swept Hm Hnone.
  destruct (sweep_no_gain cfg pre post (mkSweep 0 (feePayer tx) 0 false) Hnone)
    as [Hb Hmax].
  fold (sweep cfg pre post (feePayer tx)) in Hb, Hmax. fold swept in Hb, Hmax.
  cbn [buyer maxBuyerBalance] in Hb, Hmax.
  unfold processTransaction. rewrite Hm. cbv zeta. fold pre. fold post.
  split.
  - intros s who amount balance Hrun.
    destruct (burnSink cfg sig pre post (deadTransfers cfg post)) as [e|] eqn:Hsink.
    { apply burnSink_Burn in Hsink as (o & a & ->). discriminate. }
    destruct (if isBurnLog (logMessages m) then burnByLog cfg sig pre post pre else None)
      as [e|] eqn:Hlog.
    { destruct (isBurnLog (logMessages m)); [|discriminate].
      apply burnByLog_Some in Hlog as (Y & _ & _ & ->). discriminate. }
    apply buyDetection_Buy in Hrun as (He & Htrade & Hdust).
    fold swept in He, Htrade, Hdust. rewrite Hb, Hmax in He.
    injection He as -> -> -> ->.
    split; [reflexivity|]. split; [reflexivity|]. split; [reflexivity|].
    split; [exact Htrade|]. split; [reflexivity|]. split; [exact Hdust|].
    intros Hthr. split; [exact Hthr|].
    intros p currentSupply b. cbv zeta.
    unfold handleBuy, buyMessage, isArbitrageBalance. rewrite Hthr. cbn [andb negb].
    destruct (JS.lt (totalBought swept * usd p) (MIN_ARB_USD cfg)); [reflexivity|].
    destruct (Ranks.getBuyEmojis (totalBought swept * usd p) true); reflexivity.
  - intros -> -> Htrade Hdust Hpayer. unfold buyDetection. fold swept.
    rewrite Htrade, Hdust, Hb, Hmax. cbn [andb].
    apply String.eqb_neq in Hpayer. now rewrite Hpayer.
Qed.

Lemma fee_payer_attribution_witness :
  processTransaction sampleConfig "5sig" (Some noReceiverTx)
  = Some (Buy "5sig" alice 100 0)
  /\ isArbitrageBalance sampleConfig 0 = true
  /\ handleBuy sampleConfig (Some (mkPrice 0.25 0.001)) 99000000 "5sig" alice 100 0
       startBot
     = enqueue (mkMsg "https://voidsolana.com/arbitrage.jpg"
                  (BuyCaption "🤖🔩" 100 25 0.25 24750000 1000000 1 "5sig" alice
                     true 0 "VOID Peasant")
                  false)
               startBot
  /\ handleBuy sampleConfig (Some (mkPrice 0.2 0.001)) 99000000 "5sig" alice 100 0
       startBot
     = startBot.
Proof.
  assert (forall p,
             In p [entry 1 "VoidMint1111" "PoolState1111" 900] ->
             isVoid sampleConfig p = true ->
             JS.gt (deltaOf [entry 1 "VoidMint1111" "PoolState1111" 1000] p) 0 = false)
    as Hnone by (intros p [<-|[]] _; reflexivity).
  destruct (fee_payer_attribution sampleConfig "5sig" noReceiverTx _ eq_refl Hnone)
    as [Hany Hrun].
  assert (processTransaction sampleConfig "5sig" (Some noReceiverTx)
          = Some (Buy "5sig" alice 100 0)) as E.
  { apply Hrun; try reflexivity. discriminate. }
  destruct (proj2 (proj2 (proj2 (proj2 (proj2 (proj2 (Hany _ _ _ _ E)))))) eq_refl)
    as [Harb Hbuy].
  split; [exact E|]. split; [exact Harb|]. split.
  - exact (Hbuy (mkPrice 0.25 0.001) 99000000%float startBot).
  - exact (Hbuy (mkPrice 0.2 0.001) 99000000%float startBot).
Defined.

(** ** More order facts *)

Lemma SFltb_irrefl (a : spec_float) : SFltb a a = false.
Proof.
  unfold SFltb. destruct a as [s|s| |s m e]; try destruct s; cbn; try reflexivity.
  all: rewrite Z.compare_refl; change (Pos.compare_cont Eq m m) with (Pos.compare m m);
       now rewrite Pos.compare_refl.
Qed.

Lemma lt_irrefl (a : JS.number) : JS.lt a a = false.
Proof. unfold JS.lt. rewrite ltb_spec. apply SFltb_irrefl. Qed.

Lemma lt_trans (a b c : JS.number) :
  JS.lt a b = true -> JS.lt b c = true -> JS.lt a c = true.
Proof.
  unfold JS.lt. rewrite !ltb_spec. intros H1 H2.
  apply (SFcompare_le_lt_trans _ (Prim2SF b)); [now apply SFltb_SFleb | exact H2].
Qed.

(** ** ranks.ts, continued *)

Lemma descending_VOID_RANKS : descending Ranks.VOID_RANKS = true.
Proof. vm_compute. reflexivity. Qed.

Lemma rankIn_at before r after b :
  (forall x, In x before -> JS.ge b (Ranks.threshold x) = false) ->
  JS.ge b (Ranks.threshold r) = true ->
  Ranks.rankIn (before ++ r :: after) b = Ranks.name r.
Proof.
  intros Hb Hr. induction before as [|x before IH]; cbn [app Ranks.rankIn].
  - now rewrite Hr.
  - rewrite (Hb x (or_introl eq_refl)). apply IH. intros y Hy. apply Hb. now right.
Qed.

Lemma descending_app before r after :
  descending (before ++ r :: after) = true ->
  forall x, In x before -> JS.gt (Ranks.threshold x) (Ranks.threshold r) = true.
Proof.
  induction before as [|y before IH]; cbn [app descending]; intros H x Hx; [destruct Hx|].
  apply andb_prop in H as [Hy Hrest]. destruct Hx as [<-|Hx].
  - rewrite forallb_forall in Hy. apply Hy. apply in_or_app. right. now left.
  - now apply IH.
Qed.

(** X1. Thresholds are inclusive lower bounds of bands: a balance that
    reaches the threshold of the entry at position [i] and is below the
    threshold of the entry just above it gets the rank of entry [i]. *)
Theorem rank_bands (i : nat) (r : Ranks.VoidRank) (b : JS.number) :
  nth_error Ranks.VOID_RANKS i = Some r ->
  JS.ge b (Ranks.threshold r) = true ->
  (forall r', i <> 0%nat -> nth_error Ranks.VOID_RANKS (i - 1) = Some r' ->
              JS.lt b (Ranks.threshold r') = true) ->
  Ranks.getVoidRank b = Ranks.name r.
Proof.
  intros Hnth Hge Hprev.
  destruct (nth_error_split _ _ Hnth) as (before & after & Hsplit & Hlen).
  unfold Ranks.getVoidRank. rewrite Hsplit. apply rankIn_at; [|exact Hge].
  intros x Hx. destruct (JS.ge b (Ranks.threshold x)) eqn:Hxb; [|reflexivity]. exfalso.
  pose proof descending_VOID_RANKS as Hd. rewrite Hsplit in Hd.
  destruct (exists_last (l := before)) as (front & r' & Hfront);
    [intros ->; destruct Hx|].
  assert (i <> 0%nat) as Hi by (subst before i; rewrite length_app; cbn; lia).
  assert (nth_error Ranks.VOID_RANKS (i - 1) = Some r') as Hr'.
  { rewrite Hsplit, Hfront, <- app_assoc. cbn [app].
    replace (i - 1)%nat with (List.length front + 0)%nat
      by (subst before i; rewrite length_app; cbn; lia).
    now rewrite nth_error_app2, Nat.add_comm, Nat.add_sub by lia. }
  pose proof (Hprev r' Hi Hr') as Hlt.
  pose proof (ge_lt_gt _ _ _ Hxb Hlt) as Hx_lt. unfold JS.gt in Hx_lt.
  fold (JS.lt (Ranks.threshold x) (Ranks.threshold r')) in Hx_lt.
  rewrite Hfront in Hx. apply in_app_or in Hx as [Hx|[<-|[]]].
  - rewrite Hfront, <- app_assoc in Hd. cbn [app] in Hd.
    pose proof (descending_app _ _ _ Hd x Hx) as Hgt. unfold JS.gt in Hgt.
    fold (JS.lt (Ranks.threshold r') (Ranks.threshold x)) in Hgt.
    pose proof (lt_trans _ _ _ Hx_lt Hgt) as Habs. rewrite lt_irrefl in Habs. discriminate.
  - rewrite lt_irrefl in Hx_lt. discriminate.
Qed.

Lemma rank_bands_witness : Ranks.getVoidRank 7499.5 = "VOID Rookie".
Proof.
  apply (rank_bands 40 (Ranks.mkRank "VOID Rookie" 5000) 7499.5 eq_refl eq_refl).
  intros r' _ H. injection H as <-. reflexivity.
Defined.

Lemma url_of_position (k : nat) :
  (k <= 44)%nat ->
  Ranks.getRankImageUrl (nth k (map Ranks.name Ranks.VOID_RANKS) "VOID Peasant")
  = ("https://voidsolana.com/ranks/rank"
     ++ NilZero.string_of_int (Z.to_int (45 - Z.of_nat (Nat.min k 43))) ++ ".png")%string.
Proof.
  intros Hk.
  do 45 (destruct k as [|k]; [vm_compute; reflexivity|]).
  lia.
Qed.

Lemma name_of_position (k : nat) :
  (k <= 44)%nat ->
  nth_error (map Ranks.name Ranks.VOID_RANKS) (Nat.min k 43)
  = Some (nth k (map Ranks.name Ranks.VOID_RANKS) "VOID Peasant").
Proof.
  intros Hk.
  do 45 (destruct k as [|k]; [vm_compute; reflexivity|]).
  lia.
Qed.


Lemma findIndexFrom_none {A} (p : A -> bool) (l : list A) (i : Z) :
  (forall x, In x l -> p x = false) -> JS.findIndexFrom p i l = -1.
Proof.
  revert i. induction l as [|x l IH]; intros i H; cbn [JS.findIndexFrom]; [reflexivity|].
  rewrite (H x (or_introl eq_refl)). apply IH. intros y Hy. apply H. now right.
Qed.


(** X3. A name that is not in the table has index -1 and gets the image of
    the lowest rank, rank2.png. *)
Theorem rank_image_fallback (rankName : string) :
  (forall r, In r Ranks.VOID_RANKS -> Ranks.name r <> rankName) ->
  Ranks.rankIndex rankName = -1
  /\ Ranks.getRankImageUrl rankName = "https://voidsolana.com/ranks/rank2.png"
  /\ Ranks.getRankImageUrl rankName = Ranks.getRankImageUrl "VOID Peasant".
Proof.
  intros H.
  assert (Ranks.rankIndex rankName = -1) as E.
  { apply findIndexFrom_none. intros r Hr. apply String.eqb_neq. now apply H. }
  split; [exact E|]. unfold Ranks.getRankImageUrl at 1 2. rewrite E.
  split; reflexivity.
Qed.

Lemma rank_image_fallback_witness :
  Ranks.getRankImageUrl "void peasant" = "https://voidsolana.com/ranks/rank2.png".
Proof.
  refine (proj1 (proj2 (rank_image_fallback "void peasant" _))).
  intros r Hr. apply String.eqb_neq. revert r Hr. apply Forall_forall.
  repeat (constructor; [reflexivity|]). constructor.
Defined.


Lemma image_of_balance (b : JS.number) :
  exists i : nat,
    (i < 44)%nat
    /\ nth_error (map Ranks.name Ranks.VOID_RANKS) i = Some (Ranks.getVoidRank b)
    /\ Ranks.getRankImageUrl (Ranks.getVoidRank b)
       = ("https://voidsolana.com/ranks/rank"
          ++ NilZero.string_of_int (Z.to_int (45 - Z.of_nat i)) ++ ".png")%string.
Proof.
  pose proof (matchPos_le_length Ranks.VOID_RANKS b) as Hk.
  change (List.length Ranks.VOID_RANKS) with 44%nat in *.
  exists (Nat.min (matchPos Ranks.VOID_RANKS b) 43).
  unfold Ranks.getVoidRank. rewrite rankIn_matchPos.
  split; [lia|]. split; [now apply name_of_position | now apply url_of_position].
Qed.


(** X2. Whatever the balance (NaN and infinities included), [getVoidRank]
    returns a name of the table, so [getRankImageUrl] never takes its
    fallback on it: the URL is that of image [45 - i] for the position [i] of
    the rank, an image of [2, 45]. *)
Theorem rank_image_of_any_balance (b : JS.number) :
  exists i : nat,
    (i < List.length Ranks.VOID_RANKS)%nat
    /\ nth_error (map Ranks.name Ranks.VOID_RANKS) i = Some (Ranks.getVoidRank b)
    /\ Ranks.getRankImageUrl (Ranks.getVoidRank b)
       = ("https://voidsolana.com/ranks/rank"
          ++ NilZero.string_of_int (Z.to_int (45 - Z.of_nat i)) ++ ".png")%string
    /\ 2 <= 45 - Z.of_nat i <= 45.
Proof.
  destruct (image_of_balance b) as (i & Hi & Hname & Hurl).
  exists i. change (List.length Ranks.VOID_RANKS) with 44%nat.
  repeat split; try assumption; lia.
Qed.


(** X4. [getBuyEmojis] returns [max(1, min(n, 48))] copies of the emoji pair
    when [n = Math.floor(usdValue / unit)] is not negative ([unit] is 100
    for an arbitrage and 50 otherwise), 48 copies for plus infinity and the
    empty string for NaN; for a negative [n] (and for minus infinity)
    [repeat] throws. *)
Theorem buy_emojis_shape (usdValue : JS.number) (isArbitrage : bool) :
  let pair : string := if isArbitrage then "🤖🔩" else "🟣🔥" in
  let pairs := JS.Math_floor (usdValue / (if isArbitrage then 100 else 50))%float in
  (forall z, pairs = JS.RInt z -> 0 <= z ->
     Ranks.getBuyEmojis usdValue isArbitrage
     = Some (JS.repeatString pair (Z.to_nat (Z.max 1 (Z.min z 48)))))
  /\ (forall z, pairs = JS.RInt z -> z < 0 ->
        Ranks.getBuyEmojis usdValue isArbitrage = None)
  /\ (pairs = JS.RInf false ->
        Ranks.getBuyEmojis usdValue isArbitrage = Some (JS.repeatString pair 48))
  /\ (pairs = JS.RInf true -> Ranks.getBuyEmojis usdValue isArbitrage = None)
  /\ (pairs = JS.RNaN -> Ranks.getBuyEmojis usdValue isArbitrage = Some "").
Proof.
  cbv zeta. unfold Ranks.getBuyEmojis.
  repeat split; try (intros ->; reflexivity).
  - intros z -> Hz. cbn [JS.minInt].
    destruct (Z.eq_dec z 0) as [->|Hnz]; [destruct isArbitrage; reflexivity|].
    assert (Z.max 1 (Z.min z 48) = Z.min z 48) as -> by lia.
    destruct (Z.min z 48) as [|p|p] eqn:E; try lia.
    cbn [JS.repeat]. reflexivity.
  - intros z -> Hz. cbn [JS.minInt]. replace (Z.min z 48) with z by lia.
    destruct z as [|p|p]; try lia. reflexivity.
Qed.

Lemma buy_emojis_shape_witness :
  Ranks.getBuyEmojis 120 false = Some "🟣🔥🟣🔥"
  /\ Ranks.getBuyEmojis (-120) false = None.
Proof.
  split.
  - exact (proj1 (buy_emojis_shape 120 false) 2 eq_refl ltac:(lia)).
  - exact (proj1 (proj2 (buy_emojis_shape (-120) false)) (-3) eq_refl ltac:(lia)).
Defined.

(** X5. [handleBuy] either leaves the queue as it is or makes one call to
    [enqueue], and then: a price was at hand, the USD value is not below the
    threshold that applies, the emoji line was built, the message is not
    pin-flagged, and its photo is the arbitrage image for an arbitrage and
    otherwise one of the rank images 2 to 45. *)
Theorem buy_notification_shape (cfg : Config) (price : option Price)
    (currentSupply : JS.number) (sig who : string) (amount balance : JS.number)
    (b : Bot) :
  handleBuy cfg price currentSupply sig who amount balance b = b
  \/ exists p emojis i,
       price = Some p
       /\ Ranks.getBuyEmojis (amount * usd p) (isArbitrageBalance cfg balance)
          = Some emojis
       /\ JS.lt (amount * usd p)
            (if isArbitrageBalance cfg balance then MIN_ARB_USD cfg else MIN_BUY_USD cfg)
          = false
       /\ handleBuy cfg price currentSupply sig who amount balance b
          = enqueue (buyMessage cfg p currentSupply sig who amount balance emojis) b
       /\ pin (buyMessage cfg p currentSupply sig who amount balance emojis) = false
       /\ (i < 44)%nat
       /\ photo (buyMessage cfg p currentSupply sig who amount balance emojis)
          = if isArbitrageBalance cfg balance then ARB_IMAGE_URL cfg
            else ("https://voidsolana.com/ranks/rank"
                  ++ NilZero.string_of_int (Z.to_int (45 - Z.of_nat i)) ++ ".png")%string.
Proof.
  unfold handleBuy. destruct price as [p|]; [|now left].
  destruct (image_of_balance balance) as (i & Hi & _ & Hurl).
  destruct (isArbitrageBalance cfg balance) eqn:Harb; cbn [andb negb].
  - destruct (JS.lt (amount * usd p) (MIN_ARB_USD cfg)) eqn:Hlt; [now left|].
    destruct (Ranks.getBuyEmojis (amount * usd p) true) as [emojis|] eqn:He; [|now left].
    right. exists p, emojis, i. unfold buyMessage. rewrite Harb. cbn [pin photo].
    repeat split; assumption.
  - destruct (JS.lt (amount * usd p) (MIN_BUY_USD cfg)) eqn:Hlt; [now left|].
    destruct (Ranks.getBuyEmojis (amount * usd p) false) as [emojis|] eqn:He; [|now left].
    right. exists p, emojis, i. unfold buyMessage. rewrite Harb. cbn [pin photo].
    repeat split; assumption.
Qed.

(** ** The message queue, continued *)

Lemma queueState_startBot : queueState startBot.
Proof. left. repeat split. Qed.

Lemma queue_step api b e :
  queueState b ->
  queueState (stepQueue api b e)
  /\ attemptedBy api [e] b ++ inFlight (stepQueue api b e)
     ++ messageQueue (stepQueue api b e)
     = inFlight b ++ messageQueue b ++ enqueuedBy [e].
Proof.
  unfold queueState, inFlight.
  intros [(Hs & Hm & Ht & Hq) | [(Hs & [m Hm] & Ht) | (Hs & Hm & Ht)]];
    destruct b as [queue sendingFlag inflight timerFlag tg];
    cbn [isSending sending timer messageQueue] in *; subst;
    destruct e as [msg| |]; try destruct queue as [|next rest];
    cbn [stepQueue enqueue settle onTimeout processQueue attemptedBy enqueuedBy
         isSending sending timer messageQueue app];
    (split;
     [ first [ left; repeat split; reflexivity
             | right; left; repeat split; eauto; fail
             | right; right; repeat split; reflexivity ]
     | rewrite ?app_nil_r; reflexivity ]).
Qed.

Lemma attemptedBy_cons api e events b :
  attemptedBy api (e :: events) b
  = attemptedBy api [e] b ++ attemptedBy api events (stepQueue api b e).
Proof.
  cbn [attemptedBy]. destruct e; try reflexivity.
  destruct (sending b); reflexivity.
Qed.

Lemma enqueuedBy_cons e events :
  enqueuedBy (e :: events) = enqueuedBy [e] ++ enqueuedBy events.
Proof. destruct e; reflexivity. Qed.

Lemma queue_run api events b :
  queueState b ->
  queueState (runQueue api events b)
  /\ attemptedBy api events b ++ inFlight (runQueue api events b)
     ++ messageQueue (runQueue api events b)
     = inFlight b ++ messageQueue b ++ enqueuedBy events.
Proof.
  revert b. induction events as [|e events IH]; intros b Hb.
  - split; [exact Hb|]. cbn. now rewrite app_nil_r.
  - destruct (queue_step api b e Hb) as [Hb' Hstep].
    destruct (IH _ Hb') as [Hfinal Hrun].
    change (runQueue api (e :: events) b) with (runQueue api events (stepQueue api b e)).
    split; [exact Hfinal|].
    rewrite attemptedBy_cons, enqueuedBy_cons, <- app_assoc, Hrun.
    rewrite !app_assoc. f_equal. rewrite <- !app_assoc. exact Hstep.
Qed.

(** X6. Whatever the order in which messages are enqueued, deliveries settle
    and timeouts fire, starting from the empty queue: the queue is idle with
    nothing waiting, or has one delivery in flight, or waits for the timeout;
    and the messages whose delivery was carried out, then the one in flight,
    then the waiting ones are exactly the messages enqueued, in that order
    (first in first out, none lost, none delivered twice). *)
Theorem queue_fifo (api : nat -> bool) (events : list QueueEvent) :
  let b := runQueue api events startBot in
  queueState b
  /\ attemptedBy api events startBot ++ inFlight b ++ messageQueue b
     = enqueuedBy events.
Proof.
  cbv zeta. destruct (queue_run api events startBot queueState_startBot) as [H1 H2].
  split; [exact H1 | exact H2].
Qed.

(** *** One delivery *)

Ltac delivery_cases api n :=
  destruct (api n) eqn:?; step_telegram;
  try (destruct (api (S n)) eqn:?; step_telegram;
       try (destruct (api (S (S n))) eqn:?; step_telegram;
            try (destruct (api (S (S (S n)))) eqn:?; step_telegram))).

(** X7. For a message that is not pin-flagged (every buy notification) one
    delivery puts at most one message in the channel: the photo when the
    photo send is accepted, the text when it is refused and the text send is
    accepted, nothing otherwise; it pins nothing and makes one call in the
    first case and two in the others. *)
Theorem delivery_without_pin (api : nat -> bool) (msg : QueuedMessage) (tg : Telegram) :
  pin msg = false ->
  let tg' := snd (deliver api msg tg) in
  channel tg'
  = channel tg
    ++ (if api (apiCalls tg) then [PhotoMessage (photo msg) (caption msg)]
        else if api (S (apiCalls tg)) then [TextMessage (caption msg)]
        else [])
  /\ pinned tg' = pinned tg
  /\ apiCalls tg' = (if api (apiCalls tg) then 1 + apiCalls tg else 2 + apiCalls tg)%nat.
Proof.
  intros Hpin. cbv zeta. unfold_delivery. rewrite Hpin.
  destruct (api (apiCalls tg)) eqn:H0; step_telegram.
  - repeat split.
  - destruct (api (S (apiCalls tg))) eqn:H1; step_telegram;
      repeat split; now rewrite ?app_nil_r.
Qed.

Lemma delivery_without_pin_witness :
  channel (snd (deliver (fun _ => true)
                  (buyMessage sampleConfig (mkPrice 0.25 0.001) 99000000 "5sig" bob
                     100 700 "🟣🔥")
                  (mkTelegram 0 [] [] [])))
  = [PhotoMessage "https://voidsolana.com/ranks/rank2.png"
       (caption (buyMessage sampleConfig (mkPrice 0.25 0.001) 99000000 "5sig" bob
                   100 700 "🟣🔥"))].
Proof.
  exact (proj1 (delivery_without_pin (fun _ => true)
                  (buyMessage sampleConfig (mkPrice 0.25 0.001) 99000000 "5sig" bob
                     100 700 "🟣🔥")
                  (mkTelegram 0 [] [] []) eq_refl)).
Defined.

(** X8. One delivery appends at most two messages to the channel; two
    exactly when the message is pin-flagged, the photo is accepted, the pin
    refused and the text accepted; none exactly when both sends are refused.
    It makes between one and four API calls, and every pinned id remains the
    id of a message of the channel. *)
Theorem delivery_outcomes (api : nat -> bool) (msg : QueuedMessage) (tg : Telegram) :
  let n := apiCalls tg in
  let tg' := snd (deliver api msg tg) in
  exists added,
    channel tg' = channel tg ++ added
    /\ (List.length added <= 2)%nat
    /\ (List.length added = 2%nat
        <-> pin msg = true /\ api n = true /\ api (S n) = false /\ api (S (S n)) = true)
    /\ (List.length added = 0%nat <-> api n = false /\ api (S n) = false)
    /\ (n < apiCalls tg' <= n + 4)%nat
    /\ (pinsDelivered tg -> pinsDelivered tg').
Proof.
  cbv zeta. unfold_delivery. unfold pinsDelivered.
  destruct (pin msg) eqn:Hpin; delivery_cases api (apiCalls tg);
    eexists;
    (split; [first [reflexivity | rewrite <- app_assoc; reflexivity
                    | symmetry; apply app_nil_r]|]);
    cbn [List.length app];
    (split; [lia|]);
    (split; [split; [try discriminate; intros _; repeat split; congruence
                    | intros (? & ? & ? & ?); congruence]|]);
    (split; [split; [try discriminate; intros _; split; congruence
                    | intros (? & ?); congruence]|]);
    (split; [lia|]);
    intros Hp; rewrite ?Forall_app; repeat split;
      try (eapply Forall_impl; [|exact Hp]; cbn beta; intros;
           rewrite ?length_app; cbn [List.length]; lia);
      try (repeat constructor; rewrite ?length_app; cbn [List.length]; lia).
Qed.

(** X9. With a price at hand a Burn event is notified whatever its amount
    (no USD threshold applies to burns), by one pin-flagged message with the
    burn image; without a price no event of either kind is notified. *)
Theorem burns_always_notified (cfg : Config) (p : Price) (currentSupply : JS.number)
    (sig : string) (burner : option string) (amount : JS.number) (b : Bot) :
  consistent b ->
  pending (dispatch cfg (Some p) currentSupply (Some (Burn sig burner amount)) b)
  = S (pending b)
  /\ (exists text,
        dispatch cfg (Some p) currentSupply (Some (Burn sig burner amount)) b
        = enqueue (mkMsg (BURN_IMAGE_URL cfg) text true) b)
  /\ (forall e, dispatch cfg None currentSupply e b = b).
Proof.
  intros Hc. unfold dispatch, handleBurn. split; [now apply pending_enqueue|].
  split; [eexists; reflexivity|].
  intros [[s o a|s who a bal]|]; reflexivity.
Qed.

Lemma burns_always_notified_witness :
  pending (dispatch sampleConfig (Some (mkPrice 0.25 0.001)) 99000000
             (Some (Burn "5sig" (Some alice) 0.000001)) startBot)
  = 1%nat.
Proof.
  exact (proj1 (burns_always_notified sampleConfig (mkPrice 0.25 0.001) 99000000
                  "5sig" (Some alice) 0.000001 startBot (fun _ => eq_refl))).
Defined.

(** ** Swap polling *)

Lemma markProcessed_marks sig w : In sig (snd (markProcessed sig w)).
Proof.
  unfold markProcessed. destruct (setHas sig w) eqn:H; cbn [snd].
  - now apply setHas_In.
  - apply in_or_app. right. now left.
Qed.

Lemma setDelete_incl x w y : In y (setDelete x w) -> In y w.
Proof. unfold setDelete. intros H. now apply filter_In in H as [H _]. Qed.

Lemma NoDup_markProcessed sig w : NoDup w -> NoDup (snd (markProcessed sig w)).
Proof.
  intros Hnd. unfold markProcessed. destruct (setHas sig w) eqn:H; cbn [snd]; [exact Hnd|].
  apply setHas_notIn in H.
  assert (forall evicted, NoDup evicted -> (forall y, In y evicted -> In y w) ->
                          NoDup (evicted ++ [sig])) as Happ.
  { intros evicted He Hincl. apply NoDup_app; [exact He | repeat constructor; auto|].
    intros y Hy [<-|[]]. apply H. now apply Hincl. }
  destruct (MAX_PROCESSED <=? Z.of_nat (List.length w)); [|now apply Happ].
  destruct w as [|first rest]; [now apply Happ|].
  destruct (JS.truthy first); [|now apply Happ].
  apply Happ; [apply NoDup_filter; exact Hnd | intros y; apply setDelete_incl].
Qed.

(** X10. After [markProcessed(sig)] the signature is in the window: a second
    call returns false and leaves the window as it is.  A call adds at most
    one entry, keeps the window free of repetitions, and returns false
    exactly when the signature was already there. *)
Theorem markProcessed_idempotent (sig : string) (w : list string) :
  let w' := snd (markProcessed sig w) in
  setHas sig w' = true
  /\ markProcessed sig w' = (false, w')
  /\ (List.length w' <= S (List.length w))%nat
  /\ (NoDup w -> NoDup w')
  /\ (fst (markProcessed sig w) = false <-> In sig w).
Proof.
  cbv zeta. pose proof (markProcessed_marks sig w) as Hin.
  split; [now apply setHas_In|]. split; [now apply markProcessed_seen|].
  split; [|split; [apply NoDup_markProcessed|]].
  - unfold markProcessed. destruct (setHas sig w); cbn [snd]; [lia|].
    rewrite length_app. cbn [List.length].
    destruct (MAX_PROCESSED <=? Z.of_nat (List.length w)); [|lia].
    destruct w as [|first rest]; [cbn; lia|].
    destruct (JS.truthy first); [|lia].
    unfold setDelete. pose proof (filter_length_le (fun y => negb (y =? first)%string) (first :: rest)).
    lia.
  - unfold markProcessed. destruct (setHas sig w) eqn:H; cbn [fst].
    + split; [intros _; now apply setHas_In | reflexivity].
    + split; [discriminate|]. intros Hc. apply setHas_In in Hc. congruence.
Qed.

(** Retention: an element with fewer than capacity - 1 elements behind it
    survives one more call. *)
Lemma markProcessed_retains sig w front x back :
  NoDup w -> w = front ++ x :: back ->
  (S (List.length back) < capacity)%nat ->
  exists front' back',
    snd (markProcessed sig w) = front' ++ x :: back'
    /\ (List.length back' <= S (List.length back))%nat.
Proof.
  intros Hnd Hw Hback. unfold markProcessed.
  destruct (setHas sig w); cbn [snd]; [exists front, back; split; [exact Hw | lia]|].
  assert (exists front', w ++ [sig] = front' ++ x :: (back ++ [sig])) as Hkeep.
  { exists front. rewrite Hw, <- app_assoc. reflexivity. }
  pose proof capacity_Z as HC. unfold MAX_PROCESSED in *.
  destruct (Z.leb_spec 2000 (Z.of_nat (List.length w))) as [Hfull|Hroom].
  - destruct w as [|first rest] eqn:Ew; [destruct Hkeep as [f Hf]; exists f, (back ++ [sig]);
      split; [exact Hf | rewrite length_app; cbn; lia]|].
    destruct (JS.truthy first).
    + rewrite setDelete_head by exact Hnd.
      destruct front as [|f front].
      * cbn [app] in Hw. injection Hw as _ ->.
        cbn [List.length] in Hfull. lia.
      * cbn [app] in Hw. injection Hw as _ ->.
        exists front, (back ++ [sig]). rewrite <- app_assoc. split; [reflexivity|].
        rewrite length_app. cbn. lia.
    + destruct Hkeep as [f Hf]. exists f, (back ++ [sig]).
      split; [exact Hf | rewrite length_app; cbn; lia].
  - destruct Hkeep as [f Hf]. exists f, (back ++ [sig]).
    split; [exact Hf | rewrite length_app; cbn; lia].
Qed.

Lemma classifyPage_skips_retained sigs : forall w front x back,
  NoDup w -> w = front ++ x :: back ->
  (List.length back + List.length sigs < capacity)%nat ->
  ~ In x (fst (classifyPage sigs w)).
Proof.
  induction sigs as [|info sigs IH]; intros w front x back Hnd Hw Hlen; [intros []|].
  cbn [classifyPage fst snd]. cbn [List.length] in Hlen.
  assert (In x w) as Hx by (rewrite Hw; apply in_or_app; right; now left).
  destruct (markProcessed_retains (signature info) w front x back Hnd Hw ltac:(lia))
    as (front' & back' & Hw' & Hback').
  pose proof (NoDup_markProcessed (signature info) w Hnd) as Hnd'.
  pose proof (IH _ front' x back' Hnd' Hw' ltac:(lia)) as Hrest.
  destruct (fst (markProcessed (signature info) w)) eqn:Hfresh; cbn [andb]; [|exact Hrest].
  destruct (err info); cbn [negb]; [exact Hrest|].
  intros [Heq|Hin]; [|now apply Hrest].
  rewrite Heq in Hfresh. rewrite (markProcessed_seen x w Hx) in Hfresh. discriminate.
Qed.

Lemma classifyPage_sound sigs : forall w,
  Subseq (fst (classifyPage sigs w))
         (map signature (filter (fun info => negb (err info)) sigs)).
Proof.
  induction sigs as [|info sigs IH]; intros w; [constructor|].
  cbn [classifyPage fst snd filter].
  destruct (err info); cbn [negb andb map].
  - rewrite andb_false_r. apply IH.
  - rewrite andb_true_r.
    destruct (fst (markProcessed (signature info) w)); constructor; apply IH.
Qed.

Lemma markProcessed_fresh_last sig w :
  fst (markProcessed sig w) = true ->
  exists front, snd (markProcessed sig w) = front ++ [sig].
Proof.
  unfold markProcessed. destruct (setHas sig w); cbn [fst snd]; [discriminate|].
  intros _. eexists. reflexivity.
Qed.

Lemma classifyPage_NoDup sigs : forall w,
  NoDup w -> (List.length sigs <= capacity)%nat ->
  NoDup (fst (classifyPage sigs w)) /\ NoDup (snd (classifyPage sigs w)).
Proof.
  induction sigs as [|info sigs IH]; intros w Hnd Hlen; [split; [constructor | exact Hnd]|].
  cbn [classifyPage fst snd]. cbn [List.length] in Hlen.
  pose proof (NoDup_markProcessed (signature info) w Hnd) as Hnd'.
  destruct (IH _ Hnd' ltac:(lia)) as [Hc Hw]. split; [|exact Hw].
  destruct (fst (markProcessed (signature info) w)) eqn:Hfresh; cbn [andb]; [|exact Hc].
  destruct (err info); cbn [negb]; [exact Hc|].
  constructor; [|exact Hc].
  destruct (markProcessed_fresh_last _ _ Hfresh) as [front Hsplit].
  apply (classifyPage_skips_retained sigs _ front (signature info) [] Hnd' Hsplit).
  cbn [List.length]. lia.
Qed.

Lemma classifyPage_marks_last sigs : forall w info,
  In (signature info) (snd (classifyPage (sigs ++ [info]) w)).
Proof.
  induction sigs as [|first sigs IH]; intros w info.
  - cbn [app classifyPage snd]. apply markProcessed_marks.
  - cbn [app classifyPage snd]. apply IH.
Qed.

(** X11. Within one answer of at most 2000 entries, read with a window free
    of repetitions, no signature is passed to [processTransaction] twice; the
    signatures passed are entries without [err], in the reversed (oldest
    first) order of the answer; and the window stays free of repetitions. *)
Theorem poll_classifies_once (sigs : list SigInfo) (cursor : option string)
    (window : list string) :
  NoDup window ->
  Z.of_nat (List.length sigs) <= MAX_PROCESSED ->
  let '(result, cursor', window', classified) :=
    pollForSwaps (RpcResult sigs) cursor window in
  result = PollOk
  /\ NoDup classified
  /\ Subseq classified
            (map signature (filter (fun info => negb (err info)) (rev sigs)))
  /\ NoDup window'.
Proof.
  intros Hnd Hlen. unfold pollForSwaps.
  destruct sigs as [|newest older].
  - repeat split; [constructor | constructor | exact Hnd].
  - assert (List.length (rev (newest :: older)) <= capacity)%nat as Hlen'.
    { rewrite length_rev. pose proof capacity_Z. lia. }
    destruct (classifyPage_NoDup _ window Hnd Hlen') as [Hc Hw].
    repeat split; [exact Hc | apply classifyPage_sound | exact Hw].
Qed.

Lemma poll_classifies_once_witness :
  let '(result, cursor', window', classified) :=
    pollForSwaps
      (RpcResult [mkSig "s3" false; mkSig "s2" true; mkSig "s1" false; mkSig "s3" false])
      (Some "s0") ["s0"] in
  result = PollOk
  /\ NoDup classified
  /\ Subseq classified ["s3"; "s1"; "s3"]
  /\ NoDup window'.
Proof.
  refine (poll_classifies_once
            [mkSig "s3" false; mkSig "s2" true; mkSig "s1" false; mkSig "s3" false]
            (Some "s0") ["s0"] _ _).
  - repeat constructor. intros [].
  - unfold MAX_PROCESSED. cbn. lia.
Defined.

(** X12. After a poll with a non-empty answer the cursor is the first
    (newest) signature of the answer, that signature is in the window
    whether or not it was classified, and the next request is limited to 10
    entries up to it (when it is not the empty string); an empty answer
    changes nothing. *)
Theorem poll_moves_cursor (newest : SigInfo) (older : list SigInfo)
    (cursor : option string) (window : list string) :
  let '(result, cursor', window', classified) :=
    pollForSwaps (RpcResult (newest :: older)) cursor window in
  cursor' = Some (signature newest)
  /\ In (signature newest) window'
  /\ (JS.truthy (signature newest) = true ->
      pollRequest cursor' = mkRequest 10 (Some (signature newest)))
  /\ pollForSwaps (RpcResult []) cursor window = (PollOk, cursor, window, []).
Proof.
  unfold pollForSwaps. split; [reflexivity|]. split.
  - cbn [rev snd]. apply classifyPage_marks_last.
  - split; [|reflexivity]. intros Ht. unfold pollRequest. now rewrite Ht.
Qed.

Lemma includes_429_error json :
  JS.includes "429" json = true -> JS.includes "429" ("Error: " ++ json) = true.
Proof.
  intros H. cbn [append]. do 7 (cbn [JS.includes]; rewrite orb_true_iff; right).
  exact H.
Qed.

(** X13. A poll that fails leaves the cursor and the window as they were
    and classifies nothing.  Status 429 doubles the backoff up to 60 s, and
    so does an RPC error whose text holds "429"; any other failure leaves
    the backoff as it was, so that an extra delay earned earlier stays until
    a poll succeeds. *)
Theorem poll_failure_keeps_state (cfg : Config) (start finish : Z) (p : Poller) :
  let baseline := Z.max 0 (BASE_INTERVAL cfg - (finish - start)) in
  let extra (b : Z) := if 1000 <? b then b else 0 in
  let doubled := Z.min (backoff p * 2) 60000 in
  pollCycle cfg RpcStatus429 start finish p
  = (mkPoller (lastSignature p) (seen p) doubled, baseline + extra doubled, [])
  /\ (forall json, JS.includes "429" json = true ->
        pollCycle cfg (RpcError json) start finish p
        = (mkPoller (lastSignature p) (seen p) doubled, baseline + extra doubled, []))
  /\ (forall json, JS.includes "429" ("Error: " ++ json) = false ->
        pollCycle cfg (RpcError json) start finish p
        = (mkPoller (lastSignature p) (seen p) (backoff p),
           baseline + extra (backoff p), []))
  /\ (forall text, JS.includes "429" text = false ->
        pollCycle cfg (RpcThrew text) start finish p
        = (mkPoller (lastSignature p) (seen p) (backoff p),
           baseline + extra (backoff p), [])).
Proof.
  cbv zeta. unfold pollCycle, pollForSwaps, pollLoop, RATE_LIMITED.
  split; [reflexivity|]. split; [|split].
  - intros json H. now rewrite (includes_429_error json H).
  - intros json H. now rewrite H.
  - intros text H. now rewrite H.
Qed.

Lemma poll_failure_keeps_state_witness :
  pollCycle sampleConfig (RpcThrew "TypeError: fetch failed") 0 1200
    (mkPoller (Some "s0") ["s0"] 8000)
  = (mkPoller (Some "s0") ["s0"] 8000, 28800 + 8000, []).
Proof.
  exact (proj2 (proj2 (proj2
           (poll_failure_keeps_state sampleConfig 0 1200
              (mkPoller (Some "s0") ["s0"] 8000))))
           "TypeError: fetch failed" eq_refl).
Defined.

(** ** The price cache, continued *)

(** X14. One call of [getVoidPrice] sends at most one request.  It returns
    nothing only after a failed request, and then leaves the cache as it
    was; the cache changes only when a request gave a pair, to that pair and
    the capture time; a cache that holds a snapshot is never emptied; and
    whatever is returned is what the cache holds afterwards. *)
Theorem price_cache_updates (now captured : Z) (response : Fetched)
    (cache : option CachedPrice) :
  let '(result, cache', requests) := getVoidPrice now response captured cache in
  (requests <= 1)%nat
  /\ (result = None -> requests = 1%nat /\ cache' = cache)
  /\ (cache' <> cache ->
      exists u s, response = Pair u s
                  /\ cache' = Some (mkCached u s captured)
                  /\ result = Some (mkPrice u s))
  /\ (cache <> None -> cache' <> None)
  /\ (forall p, result = Some p ->
        exists c, cache' = Some c /\ p = mkPrice (cached_usd c) (cached_solPrice c)).
Proof.
  unfold getVoidPrice.
  destruct cache as [c|]; [destruct (now - ts c <? 30000)|]; destruct response as [| |u s];
    (split; [lia|]);
    (split; [first [discriminate | intros _; split; reflexivity]|]);
    (split; [first [intros H; exfalso; apply H; reflexivity
                   | intros _; exists u, s; repeat split]|]);
    (split; [first [discriminate | intros H _; apply H; reflexivity | intros H; exact H]|]);
    intros p Hp; try discriminate; injection Hp as <-; eexists; split; reflexivity.
Qed.

(** ** env *)

(** X15. [env] never returns the empty string: a variable set to the empty
    string throws even when a fallback is given (the fallback only replaces
    an unset variable); a non-empty value is returned as it is, an unset
    variable gives a non-empty fallback, and throws without one. *)
Theorem env_never_empty (vars : string -> option string) (key : string)
    (fallback : option string) :
  (forall v, env vars key fallback = Some v -> v <> "")
  /\ (vars key = Some "" -> env vars key fallback = None)
  /\ (forall v, vars key = Some v -> v <> "" -> env vars key fallback = Some v)
  /\ (forall d, vars key = None -> fallback = Some d -> d <> "" ->
        env vars key fallback = Some d)
  /\ (vars key = None -> fallback = None -> env vars key fallback = None).
Proof.
  unfold env. repeat split.
  - intros v. destruct (vars key) as [x|]; [|destruct fallback as [x|]; [|discriminate]];
      destruct x; cbn [JS.truthy]; try discriminate; intros H; injection H as <-; discriminate.
  - intros ->. reflexivity.
  - intros v -> Hv. destruct v; [contradiction | reflexivity].
  - intros d -> -> Hd. destruct d; [contradiction | reflexivity].
  - intros -> ->. reflexivity.
Qed.

(** ** Classification, continued *)

Section MoreBurnLoops.

Variable cfg : Config.
Variable sig : string.
Variables pre post : list TokenBalance.

Lemma burnSink_first front t back :
  (forall x, In x front -> JS.gt (gainOf pre x) 0 = false) ->
  JS.gt (gainOf pre t) 0 = true ->
  burnSink cfg sig pre post (front ++ t :: back)
  = Some (Burn sig (Some (burnerOf cfg pre post (gainOf pre t))) (gainOf pre t)).
Proof.
  intros Hfront Ht. induction front as [|x front IH]; cbn [app burnSink].
  - now rewrite Ht.
  - rewrite (Hfront x (or_introl eq_refl)). apply IH. intros y Hy. apply Hfront. now right.
Qed.

Lemma burnSink_positive transfers e :
  burnSink cfg sig pre post transfers = Some e ->
  exists o a, e = Burn sig o a /\ JS.gt a 0 = true.
Proof.
  induction transfers as [|t rest IH]; cbn [burnSink]; [discriminate|].
  destruct (JS.gt (gainOf pre t) 0) eqn:Hg; [|exact IH].
  intros H. injection H as <-. eauto.
Qed.

Lemma burnerOf_cases gain :
  burnerOf cfg pre post gain = "Unknown"
  \/ exists p, In p pre /\ isVoid cfg p = true
               /\ owner p = Some (burnerOf cfg pre post gain)
               /\ JS.lt (abs (lossOf post p - gain)) 0.001 = true.
Proof.
  unfold burnerOf.
  destruct (find (fun p => isVoid cfg p && JS.lt (abs (lossOf post p - gain)) 0.001) pre)
    as [s|] eqn:Hfind; [|now left].
  apply find_some in Hfind as [Hin Hs]. apply andb_prop in Hs as [Hv Hl].
  destruct (owner s) as [o|] eqn:Ho; [|now left].
  destruct (JS.truthy o); [|now left].
  right. exists s. rewrite Ho. auto.
Qed.

Lemma buyDetection_not_helper payer e :
  buyDetection cfg sig pre post payer = Some e ->
  exists who a bal, e = Buy sig who a bal /\ who <> HELPER_WALLET
                    /\ JS.gt a 0.01 = true.
Proof.
  unfold buyDetection.
  destruct (isTrade (sweep cfg pre post payer)); [|discriminate].
  destruct (JS.gt (totalBought (sweep cfg pre post payer)) 0.01) eqn:Hd; [|discriminate].
  cbn [andb].
  destruct (String.eqb_spec (buyer (sweep cfg pre post payer)) HELPER_WALLET) as [|Hne];
    [discriminate|].
  cbn [negb]. intros H. injection H as <-. eauto 6.
Qed.

End MoreBurnLoops.

(** X16. When an entry of the incinerator or the dead address holding the
    tracked mint has a positive gain, the event is a Burn of that gain for
    the first such entry, whatever the log and the other balances say; it is
    attributed to "Unknown" or to the owner of a tracked-mint
    pre-balance entry whose loss is within 0.001 of the gain. *)
Theorem burn_sink_priority (cfg : Config) (sig : string) (tx : ParsedTransaction)
    (m : Meta) (front back : list TokenBalance) (t : TokenBalance) :
  let pre := preTokenBalances m in
  let post := postTokenBalances m in
  let gain := gainOf pre t in
  meta tx = Some m ->
  deadTransfers cfg post = front ++ t :: back ->
  (forall x, In x front -> JS.gt (gainOf pre x) 0 = false) ->
  JS.gt gain 0 = true ->
  processTransaction cfg sig (Some tx)
  = Some (Burn sig (Some (burnerOf cfg pre post gain)) gain)
  /\ (burnerOf cfg pre post gain = "Unknown"
      \/ exists p, In p pre /\ isVoid cfg p = true
                   /\ owner p = Some (burnerOf cfg pre post gain)
                   /\ JS.lt (abs (lossOf post p - gain)) 0.001 = true).
Proof.
  intros pre post gain Hm Hsplit Hfront Ht. split; [|apply burnerOf_cases].
  unfold processTransaction. rewrite Hm. cbv zeta. fold pre. fold post.
  rewrite Hsplit. now rewrite (burnSink_first cfg sig pre post front t back Hfront Ht).
Qed.

Lemma burn_sink_priority_witness :
  processTransaction sampleConfig "5sig" (Some sinkTx)
  = Some (Burn "5sig" (Some alice) 100).
Proof.
  refine (proj1 (burn_sink_priority sampleConfig "5sig" sinkTx _ [] []
                   (entry 3 "VoidMint1111" INCINERATOR 100) eq_refl eq_refl _ eq_refl)).
  intros x [].
Defined.

(** X17. Every event carries the signature of the transaction; a Burn has an
    amount above 0, a Buy an amount above the dust floor 0.01 and a buyer
    that is not the helper wallet. *)
Theorem emitted_events_sound (cfg : Config) (sig : string)
    (tx : option ParsedTransaction) (e : Event) :
  processTransaction cfg sig tx = Some e ->
  match e with
  | Burn s _ amount => s = sig /\ JS.gt amount 0 = true
  | Buy s who amount _ =>
      s = sig /\ who <> HELPER_WALLET /\ JS.gt amount 0.01 = true
  end.
Proof.
  unfold processTransaction. destruct tx as [t|]; [|discriminate].
  destruct (meta t) as [m|]; [|discriminate]. cbv zeta.
  destruct (burnSink cfg sig (preTokenBalances m) (postTokenBalances m)
              (deadTransfers cfg (postTokenBalances m))) as [e1|] eqn:Hsink.
  { intros H. injection H as <-.
    apply burnSink_positive in Hsink as (o & a & -> & Ha). auto. }
  destruct (if isBurnLog (logMessages m)
            then burnByLog cfg sig (preTokenBalances m) (postTokenBalances m)
                   (preTokenBalances m)
            else None) as [e2|] eqn:Hlog.
  { intros H. injection H as <-.
    destruct (isBurnLog (logMessages m)); [|discriminate].
    apply burnByLog_Some in Hlog as (Y & _ & HY & ->). split; [reflexivity|].
    unfold burnsAt in HY. apply andb_prop in HY as [HY _].
    now apply andb_prop in HY as [_ HY]. }
  intros H. apply buyDetection_not_helper in H as (who & a & bal & -> & Hw & Ha). auto.
Qed.

Lemma emitted_events_sound_witness :
  "5sig" = "5sig" /\ bob <> HELPER_WALLET /\ JS.gt 80 0.01 = true.
Proof.
  exact (emitted_events_sound sampleConfig "5sig" (Some (arbitrageTx bob))
           (Buy "5sig" bob 80 100) eq_refl).
Defined.

Section MoreSweep.

Variable cfg : Config.
Variable pre : list TokenBalance.

Lemma sweep_untracked l s :
  (forall p, In p l -> isVoid cfg p = false) ->
  fold_left (sweepStep cfg pre) l s = s.
Proof.
  revert s. induction l as [|p l IH]; intros s H; cbn [fold_left]; [reflexivity|].
  unfold sweepStep at 2. rewrite (H p (or_introl eq_refl)). cbn [negb].
  apply IH. intros q Hq. apply H. now right.
Qed.

Lemma sweep_no_trade l s :
  (forall p, In p l -> isVoid cfg p = true -> JS.lt (deltaOf pre p) 0 = true ->
             isPool cfg p = false) ->
  isTrade (fold_left (sweepStep cfg pre) l s) = isTrade s.
Proof.
  revert s. induction l as [|p l IH]; intros s H; cbn [fold_left]; [reflexivity|].
  rewrite IH by (intros q Hq; apply H; now right).
  pose proof (H p (or_introl eq_refl)) as Hp. unfold sweepStep.
  destruct (isVoid cfg p); cbn [negb]; [|reflexivity].
  destruct (JS.lt (deltaOf pre p) 0).
  - now rewrite (Hp eq_refl eq_refl).
  - destruct (JS.gt (deltaOf pre p) 0); [|reflexivity].
    destruct (JS.gt (JS.orZero (uiAmount p)) (maxBuyerBalance s)); reflexivity.
Qed.

(** What one iteration does to the largest balance seen. *)
Lemma sweepStep_max s p :
  (maxBuyerBalance (sweepStep cfg pre s p) = maxBuyerBalance s
   /\ buyer (sweepStep cfg pre s p) = buyer s
   /\ (gainer cfg pre p = true ->
       JS.gt (JS.orZero (uiAmount p)) (maxBuyerBalance s) = false))
  \/ (gainer cfg pre p = true
      /\ JS.lt (maxBuyerBalance s) (JS.orZero (uiAmount p)) = true
      /\ maxBuyerBalance (sweepStep cfg pre s p) = JS.orZero (uiAmount p)
      /\ buyer (sweepStep cfg pre s p)
         = match owner p with
           | Some o => if JS.truthy o then o else buyer s
           | None => buyer s
           end).
Proof.
  unfold sweepStep, gainer.
  destruct (isVoid cfg p); cbn [negb andb]; [|left; repeat split; discriminate].
  destruct (JS.lt (deltaOf pre p) 0); cbn [negb andb].
  - left. destruct (isPool cfg p); repeat split; discriminate.
  - destruct (JS.gt (deltaOf pre p) 0); [|left; repeat split; discriminate].
    destruct (JS.gt (JS.orZero (uiAmount p)) (maxBuyerBalance s)) eqn:Hgt.
    + right. repeat split. exact Hgt.
    + left. repeat split.
Qed.

Lemma not_gt_after_growth (x m m' : JS.number) :
  JS.gt x m = false -> (m' = m \/ JS.lt m m' = true) -> JS.gt x m' = false.
Proof.
  intros Hx [->|Hlt]; [exact Hx|].
  destruct (JS.gt x m') eqn:H; [|reflexivity].
  unfold JS.gt in *. fold (JS.lt m' x) in H. fold (JS.lt m x) in Hx.
  now rewrite (lt_trans _ _ _ Hlt H) in Hx.
Qed.

Lemma sweep_max l : forall s,
  let final := fold_left (sweepStep cfg pre) l s in
  (maxBuyerBalance final = maxBuyerBalance s
   \/ JS.lt (maxBuyerBalance s) (maxBuyerBalance final) = true)
  /\ (forall p, In p l -> gainer cfg pre p = true ->
        JS.gt (JS.orZero (uiAmount p)) (maxBuyerBalance final) = false)
  /\ ((maxBuyerBalance final = maxBuyerBalance s /\ buyer final = buyer s)
      \/ exists p, In p l /\ gainer cfg pre p = true
                   /\ maxBuyerBalance final = JS.orZero (uiAmount p)
                   /\ (forall o, owner p = Some o -> JS.truthy o = true ->
                                 buyer final = o)).
Proof.
  induction l as [|p l IH]; intros s; cbv zeta; cbn [fold_left].
  - split; [now left|]. split; [intros p []|]. now left.
  - destruct (IH (sweepStep cfg pre s p)) as (Hgrow & Hall & Hwit). cbv zeta in *.
    set (s1 := sweepStep cfg pre s p) in *.
    set (final := fold_left (sweepStep cfg pre) l s1) in *.
    destruct (sweepStep_max s p) as [(Hm & Hb & Hp) | (Hg & Hlt & Hm & Hb)];
      fold s1 in Hm, Hb.
    + split; [now rewrite <- Hm|]. split.
      * intros q [<-|Hq] Hgq; [|now apply Hall].
        apply (not_gt_after_growth _ (maxBuyerBalance s1));
          [rewrite Hm; now apply Hp | destruct Hgrow as [->|H]; auto].
      * destruct Hwit as [[Hm' Hb'] | (q & Hq & Hgq & Hmq & Hoq)].
        -- left. split; congruence.
        -- right. exists q. auto using in_cons.
    + assert (JS.lt (maxBuyerBalance s) (maxBuyerBalance final) = true) as Hlt'.
      { destruct Hgrow as [->|H]; [now rewrite Hm|].
        rewrite Hm in H. exact (lt_trans _ _ _ Hlt H). }
      split; [now right|]. split.
      * intros q [<-|Hq] Hgq; [|now apply Hall].
        apply (not_gt_after_growth _ (maxBuyerBalance s1));
          [rewrite Hm; unfold JS.gt; apply lt_irrefl
          | destruct Hgrow as [->|H]; auto].
      * right. destruct Hwit as [[Hm' Hb'] | (q & Hq & Hgq & Hmq & Hoq)].
        -- exists p. split; [now left|]. split; [exact Hg|].
           split; [congruence|]. intros o Ho Hto. rewrite Hb', Hb, Ho, Hto. reflexivity.
        -- exists q. auto using in_cons.
Qed.

End MoreSweep.

(** X18. A transaction whose token balances all belong to other mints gives
    no event, whatever its log says. *)
Theorem other_mints_ignored (cfg : Config) (sig : string) (tx : ParsedTransaction)
    (m : Meta) :
  meta tx = Some m ->
  (forall p, In p (preTokenBalances m) -> isVoid cfg p = false) ->
  (forall p, In p (postTokenBalances m) -> isVoid cfg p = false) ->
  processTransaction cfg sig (Some tx) = None.
Proof.
  intros Hm Hpre Hpost. unfold processTransaction. rewrite Hm. cbv zeta.
  assert (deadTransfers cfg (postTokenBalances m) = []) as ->.
  { unfold deadTransfers.
    induction (postTokenBalances m) as [|p l IH]; cbn [filter]; [reflexivity|].
    rewrite (Hpost p (or_introl eq_refl)), andb_false_r.
    apply IH. intros q Hq. apply Hpost. now right. }
  cbn [burnSink].
  rewrite burnByLog_None
    by (intros Y HY; unfold burnsAt; now rewrite (Hpre Y HY)).
  destruct (isBurnLog (logMessages m)); unfold buyDetection, sweep;
    now rewrite sweep_untracked.
Qed.

Lemma other_mints_ignored_witness :
  processTransaction sampleConfig "5sig" (Some otherMintTx) = None.
Proof.
  refine (other_mints_ignored sampleConfig "5sig" otherMintTx _ eq_refl _ _);
    intros p [<-|[<-|[]]]; reflexivity.
Defined.

(** X19. When no account that counts as a pool lost tracked-mint tokens, no
    Buy is emitted: a sale into the pool is not posted. *)
Theorem sells_are_not_posted (cfg : Config) (sig : string) (tx : ParsedTransaction)
    (m : Meta) :
  meta tx = Some m ->
  (forall p, In p (postTokenBalances m) -> isVoid cfg p = true ->
             JS.lt (deltaOf (preTokenBalances m) p) 0 = true -> isPool cfg p = false) ->
  isBuy (processTransaction cfg sig (Some tx)) = false.
Proof.
  intros Hm Hsell.
  destruct (processTransaction cfg sig (Some tx)) as [[s o a|s who a bal]|] eqn:Hrun;
    try reflexivity.
  exfalso. unfold processTransaction in Hrun. rewrite Hm in Hrun. cbv zeta in Hrun.
  destruct (burnSink cfg sig (preTokenBalances m) (postTokenBalances m)
              (deadTransfers cfg (postTokenBalances m))) as [e1|] eqn:Hsink.
  { apply burnSink_Burn in Hsink as (o & a' & ->). discriminate. }
  destruct (if isBurnLog (logMessages m)
            then burnByLog cfg sig (preTokenBalances m) (postTokenBalances m)
                   (preTokenBalances m)
            else None) as [e2|] eqn:Hlog.
  { destruct (isBurnLog (logMessages m)); [|discriminate].
    apply burnByLog_Some in Hlog as (Y & _ & _ & ->). discriminate. }
  apply buyDetection_Buy in Hrun as (_ & Htrade & _).
  unfold sweep in Htrade. rewrite sweep_no_trade in Htrade by exact Hsell.
  discriminate.
Qed.

Lemma sells_are_not_posted_witness :
  isBuy (processTransaction sampleConfig "5sig" (Some sellTx)) = false.
Proof.
  refine (sells_are_not_posted sampleConfig "5sig" sellTx _ eq_refl _).
  intros p [<-|[<-|[]]] _ H; [reflexivity | discriminate H].
Defined.

(** X20. After the sweep no gaining tracked-mint account has a resulting
    balance above the reported one; the reported balance is 0 with the fee
    payer as buyer, or the resulting balance of a gaining account, whose
    owner, when it has a non-empty one, is the buyer. *)
Theorem largest_receiver (cfg : Config) (pre post : list TokenBalance) (payer : string) :
  let swept := sweep cfg pre post payer in
  (forall p, In p post -> gainer cfg pre p = true ->
     JS.gt (JS.orZero (uiAmount p)) (maxBuyerBalance swept) = false)
  /\ ((maxBuyerBalance swept = 0%float /\ buyer swept = payer)
      \/ exists p, In p post /\ gainer cfg pre p = true
                   /\ maxBuyerBalance swept = JS.orZero (uiAmount p)
                   /\ (forall o, owner p = Some o -> JS.truthy o = true ->
                                 buyer swept = o)).
Proof.
  cbv zeta. unfold sweep.
  destruct (sweep_max cfg pre post (mkSweep 0 payer 0 false)) as (_ & Hall & Hwit).
  split; [exact Hall | exact Hwit].
Qed.


(** *** The totals of the sweep *)

Section SweepTotals.

Variable cfg : Config.
Variable pre : list TokenBalance.

Lemma sweepStep_total s p :
  totalBought (sweepStep cfg pre s p)
  = (if poolLoss cfg pre p then (totalBought s + abs (deltaOf pre p))%float
     else totalBought s)
  /\ isTrade (sweepStep cfg pre s p) = (isTrade s || poolLoss cfg pre p).
Proof.
  unfold sweepStep, poolLoss.
  destruct (isVoid cfg p); cbn [negb andb]; [|now rewrite orb_false_r].
  destruct (JS.lt (deltaOf pre p) 0); cbn [andb].
  - destruct (isPool cfg p); cbn [totalBought isTrade];
      [now rewrite orb_true_r | now rewrite orb_false_r].
  - rewrite orb_false_r. destruct (JS.gt (deltaOf pre p) 0); [|split; reflexivity].
    destruct (JS.gt (JS.orZero (uiAmount p)) (maxBuyerBalance s)); split; reflexivity.
Qed.

Lemma sweep_totals l : forall s,
  totalBought (fold_left (sweepStep cfg pre) l s)
  = fold_left (fun acc p => (acc + abs (deltaOf pre p))%float)
              (filter (poolLoss cfg pre) l) (totalBought s)
  /\ isTrade (fold_left (sweepStep cfg pre) l s)
     = (isTrade s || existsb (poolLoss cfg pre) l).
Proof.
  induction l as [|p l IH]; intros s; cbn [fold_left filter existsb].
  - now rewrite orb_false_r.
  - destruct (IH (sweepStep cfg pre s p)) as [Ht Hi].
    destruct (sweepStep_total s p) as [Ht1 Hi1].
    rewrite Ht, Hi, Ht1, Hi1. split; [|now rewrite orb_assoc].
    destruct (poolLoss cfg pre p); reflexivity.
Qed.

End SweepTotals.

(** X21. The amount of a Buy is the sum, in list order, of the absolute
    deltas of the tracked-mint entries that lost tokens and count as a pool;
    and the sweep marks a trade exactly when there is such an entry: one
    with a negative delta owned by a known pool or by an owner string
    shorter than 44 characters. *)
Theorem bought_total (cfg : Config) (pre post : list TokenBalance) (payer : string) :
  let swept := sweep cfg pre post payer in
  totalBought swept
  = fold_left (fun acc p => (acc + abs (deltaOf pre p))%float)
              (filter (poolLoss cfg pre) post) 0%float
  /\ (isTrade swept = true
      <-> exists p, In p post /\ isVoid cfg p = true
                    /\ JS.lt (deltaOf pre p) 0 = true
                    /\ (existsb (fun pool => ownerIs pool p) (POOLS cfg) = true
                        \/ exists o, owner p = Some o /\ (String.length o < 44)%nat)).
Proof.
  cbv zeta. unfold sweep.
  destruct (sweep_totals cfg pre post (mkSweep 0 payer 0 false)) as [Ht Hi].
  split; [exact Ht|]. rewrite Hi. cbn [isTrade orb]. rewrite existsb_exists.
  split.
  - intros (p & Hp & Hloss). exists p. unfold poolLoss, isPool in Hloss.
    apply andb_prop in Hloss as [Hloss Hpool]. apply andb_prop in Hloss as [Hv Hlt].
    repeat split; try assumption.
    apply orb_prop in Hpool as [Hk|Hshort]; [now left|right].
    destruct (owner p) as [o|]; [|discriminate]. exists o. split; [reflexivity|].
    now apply Nat.ltb_lt.
  - intros (p & Hp & Hv & Hlt & Hpool). exists p. split; [exact Hp|].
    unfold poolLoss, isPool. rewrite Hv, Hlt. cbn [andb].
    destruct Hpool as [->|(o & -> & Hlen)]; [reflexivity|].
    apply Nat.ltb_lt in Hlen. rewrite Hlen. apply orb_true_r.
Qed.

Lemma short_owner_sale_is_a_buy :
  String.length carol = 43%nat
  /\ processTransaction sampleConfig "5sig" (Some shortOwnerTx)
     = Some (Buy "5sig" unknownPool 100 1100).
Proof. split; reflexivity. Qed.
